(** * GoFesl: the Theater manager and the FESL stats handler

    A shallow embedding of [theaterManager.go] (package [main], followed by
    the second draft of [UGAM] from package [theater]) and of
    [fesl/getStats.client.go], with the properties of the session state
    machine, the game registry and the join handshake that the specification
    states about them.

    Go values are modelled as follows.
    - [string]: Rocq [string] (a sequence of bytes);
    - [map[string]string]: [gmap string string]; reading a missing key gives
      the empty string, as in Go;
    - [int] (64 bit): [Z], wrapped by [wrap64] after arithmetic;
    - pointers to clients: an index into a heap of [Client] records, so that
      a flag written through one event is seen by the next one;
    - package-level variables: the record [Globals] inside [World];
    - goroutines started by [newClient]: one step function per timer tick and
      a flag saying whether the loop has returned. *)

From Stdlib Require Import ZArith Lia Ascii String DecimalString DecimalZ DecimalPos Sorted.
From stdpp Require Import base gmap strings list functions.

Local Open Scope string_scope.
Local Open Scope Z_scope.

(** ** Go primitives *)

Module Go.

(** The 64 bit signed [int]: arithmetic wraps around. *)
Definition minInt : Z := - 2 ^ 63.
Definition maxInt : Z := 2 ^ 63 - 1.
Definition wrap64 (z : Z) : Z := (z + 2 ^ 63) mod 2 ^ 64 - 2 ^ 63.

Definition clamp64 (z : Z) : Z :=
  if z <? minInt then minInt else if maxInt <? z then maxInt else z.

(** [strconv.Itoa]: the decimal digits, with a leading minus sign for a
    negative number. *)
Definition Itoa (z : Z) : string := NilZero.string_of_int (Z.to_int z).

(** [strconv.Atoi] with its error dropped, as every caller here does
    ([n, _ := strconv.Atoi(s)]): an optional sign and at least one decimal
    digit; a syntax error gives 0 and a value out of range is clamped. *)
Definition Atoi (s : string) : Z :=
  let parsed :=
    match s with
    | String a s' =>
        if Ascii.eqb a "+"%char then option_map Decimal.Pos (NilZero.uint_of_string s')
        else NilZero.int_of_string s
    | EmptyString => None
    end in
  match parsed with
  | Some d => clamp64 (Z.of_int d)
  | None => 0
  end.

(** The byte of the double quote character. *)
Definition dquote : ascii := "034"%char.

Definition stripFirst (value : string) : string :=
  match value with
  | String c rest => if Ascii.eqb c dquote then rest else value
  | EmptyString => value
  end.

Fixpoint stripLast (value : string) : string :=
  match value with
  | EmptyString => EmptyString
  | String c EmptyString => if Ascii.eqb c dquote then EmptyString else value
  | String c rest => String c (stripLast rest)
  end.

(** The "Strip quotes" block of [CGAM] and of the second [UGAM]:
    [if len(value) > 0 && value[0] == '"' { value = value[1:] }] and then
    [if len(value) > 0 && value[len(value)-1] == '"' { value = value[:len(value)-1] }]. *)
Definition stripQuotes (value : string) : string := stripLast (stripFirst value).

(** [m[k]] on a [map[string]string]: the zero value for a missing key. *)
Definition index (m : gmap string string) (k : string) : string :=
  default "" (m !! k).

End Go.

Export Go.

(** ** The shared key/value store *)

Module Redis.

(** Modelled from the spec: [core.RedisState] and [lib.RedisObject] are
    imported by the handlers and are not among the sources. Section 6 gives
    their contract: "Shared key/value store contract: Get(namespace) -> map,
    Set(namespace, key, value)". A store maps a namespace to its hash of
    fields; a handle ([new(core.RedisState)] followed by [New(redis, name)])
    is the name of its namespace. *)
Definition hash (r : gmap string (gmap string string)) (ns : string)
  : gmap string string := default ∅ (r !! ns).

Definition Get (r : gmap string (gmap string string)) (ns key : string)
  : string := index (hash r ns) key.

Definition Put (r : gmap string (gmap string string)) (ns key value : string)
  : gmap string (gmap string string) := <[ns := <[key := value]> (hash r ns)]> r.

(** The handle of [gdata.New(tM.redis, prefix, identifier)]. *)
Definition object (prefix identifier : string) : string :=
  prefix +:+ ":" +:+ identifier.

End Redis.

(** ** Sessions, messages and the process state *)

(** [gs.CommandFESL]. *)
Record CommandFESL := mkCommand {
  Query : string;
  Message : gmap string string;
  PayloadID : Z }.

(** [gs.EventClientFESLCommand]; [Client] is a pointer. *)
Record EventClientFESLCommand := mkEvent {
  Client : nat;
  Command : CommandFESL }.

(** What the handlers read of a [gs.Client]. [IpAddr] is [Some ip] when the
    dynamic type of the address is [*net.TCPAddr] (with [ip] the text of
    [addr.IP.String()]). The two loops started by [newClient] are goroutines:
    [heartLoop] and [joinLoop] say whether each one is still running. *)
Record ClientT := mkClient {
  IsActive : bool;
  IpAddr : option string;
  IsServer : bool;
  HasLogin : bool;
  HeartTicker : option Z;
  JoinTicker : option Z;
  RedisState : string;
  heartLoop : bool;
  joinLoop : bool }.

(** The package-level variables of [theaterManager.go] (lines 76-85). *)
Record Globals := mkGlobals {
  wantsToJoin : bool;
  canJoin : bool;
  wantsToLeaveQueue : bool;
  localPort : string;
  remotePort : string;
  localIP : string;
  remoteIP : string;
  userId : string;
  nickname : string;
  pid : string }.

Definition initGlobals : Globals :=
  mkGlobals false false false "" "" "" "" "" "" "".

(** One call of [WriteFESL] (or of [socketUDP.WriteFESL], with the address
    of the datagram in place of a client). *)
Inductive Peer := TcpClient (c : nat) | UdpAddr (ip : string) (port : Z).

Record Sent := mkSent {
  peer : Peer;
  msgType : string;
  packet : gmap string string;
  msgType2 : Z }.

Inductive Level := Note | Debug | Error | Panic.

(** A line of the log, or a file of the debug dump of [logAnswer] and
    [LogCommand]. *)
Inductive LogEntry :=
| Line (lvl : Level) (text : string)
| LineMap (lvl : Level) (content : gmap string string)
| AnswerFile (msgType : string) (content : gmap string string)
| RequestFile (query : string) (content : gmap string string).

(** The statements sent to the durable store. *)
Inductive Statement :=
| SelectSoldier
| UpdateGame
| SetServerStats (keys : Z)
| GetStatsStatement (keys : Z).

Record DbCall := mkDbCall { statement : Statement; arguments : list string }.

Record World := mkWorld {
  globals : Globals;
  redis : gmap string (gmap string string);
  clients : nat -> ClientT;
  sent : list Sent;
  logs : list LogEntry;
  dbCalls : list DbCall }.

Definition setGlobals (g : Globals) (w : World) : World :=
  mkWorld g (redis w) (clients w) (sent w) (logs w) (dbCalls w).
Definition setRedis (r : gmap string (gmap string string)) (w : World) : World :=
  mkWorld (globals w) r (clients w) (sent w) (logs w) (dbCalls w).
Definition setClient (c : nat) (cl : ClientT) (w : World) : World :=
  mkWorld (globals w) (redis w) (<[c := cl]> (clients w)) (sent w) (logs w)
    (dbCalls w).
Definition logged (e : LogEntry) (w : World) : World :=
  mkWorld (globals w) (redis w) (clients w) (sent w) (logs w ++ [e]) (dbCalls w).
Definition dbCall (s : Statement) (args : list string) (w : World) : World :=
  mkWorld (globals w) (redis w) (clients w) (sent w) (logs w)
    (dbCalls w ++ [mkDbCall s args]).

Definition Noteln (text : string) : World -> World := logged (Line Note text).
Definition Debugln (text : string) : World -> World := logged (Line Debug text).
Definition Errorln (text : string) : World -> World := logged (Line Error text).

(** [event.Client.WriteFESL(msgType, packet, msgType2)]. *)
Definition WriteFESL (c : nat) (ty : string) (p : gmap string string) (ty2 : Z)
  (w : World) : World :=
  mkWorld (globals w) (redis w) (clients w)
    (sent w ++ [mkSent (TcpClient c) ty p ty2]) (logs w) (dbCalls w).

Definition WriteFESLUDP (ip : string) (port : Z) (ty : string)
  (p : gmap string string) (ty2 : Z) (w : World) : World :=
  mkWorld (globals w) (redis w) (clients w)
    (sent w ++ [mkSent (UdpAddr ip port) ty p ty2]) (logs w) (dbCalls w).

(** [tM.logAnswer]: the answer is written to the debug dump. *)
Definition logAnswer (ty : string) (p : gmap string string) (ty2 : Z)
  : World -> World := logged (AnswerFile ty p).

(** [gameServer.Set(key, value)] on the handle [ns]. *)
Definition redisSet (ns key value : string) (w : World) : World :=
  setRedis (Redis.Put (redis w) ns key value) w.

(** A packet built by assignments [p[k1] = v1; p[k2] = v2; ...] on a fresh
    map: a later assignment to the same key wins. *)
Definition assign (kvs : list (string * string)) : gmap string string :=
  foldl (fun m kv => <[kv.1 := kv.2]> m) ∅ kvs.

(** The namespace of the lobby counter, [tM.gameServerGlobal]. *)
Definition gameServerGlobal : string := "gameServer-config".

(** The state left by [tM.New]: no client is active yet, the handshake
    variables have their initial values and the counter is ["0"]. *)
Definition freshClient : ClientT :=
  mkClient false None false false None None "" false false.

Definition New : World :=
  mkWorld initGlobals (Redis.Put ∅ gameServerGlobal "Lobbies" "0")
    (fun _ => freshClient) [] [] [].

(** Assignments to the package-level variables. *)
Definition set_wantsToJoin (b : bool) (g : Globals) : Globals :=
  mkGlobals b (canJoin g) (wantsToLeaveQueue g) (localPort g) (remotePort g)
    (localIP g) (remoteIP g) (userId g) (nickname g) (pid g).
Definition set_canJoin (b : bool) (g : Globals) : Globals :=
  mkGlobals (wantsToJoin g) b (wantsToLeaveQueue g) (localPort g) (remotePort g)
    (localIP g) (remoteIP g) (userId g) (nickname g) (pid g).
Definition set_wantsToLeaveQueue (b : bool) (g : Globals) : Globals :=
  mkGlobals (wantsToJoin g) (canJoin g) b (localPort g) (remotePort g)
    (localIP g) (remoteIP g) (userId g) (nickname g) (pid g).
Definition set_localPort (s : string) (g : Globals) : Globals :=
  mkGlobals (wantsToJoin g) (canJoin g) (wantsToLeaveQueue g) s (remotePort g)
    (localIP g) (remoteIP g) (userId g) (nickname g) (pid g).
Definition set_remotePort (s : string) (g : Globals) : Globals :=
  mkGlobals (wantsToJoin g) (canJoin g) (wantsToLeaveQueue g) (localPort g) s
    (localIP g) (remoteIP g) (userId g) (nickname g) (pid g).
Definition set_localIP (s : string) (g : Globals) : Globals :=
  mkGlobals (wantsToJoin g) (canJoin g) (wantsToLeaveQueue g) (localPort g)
    (remotePort g) s (remoteIP g) (userId g) (nickname g) (pid g).
Definition set_remoteIP (s : string) (g : Globals) : Globals :=
  mkGlobals (wantsToJoin g) (canJoin g) (wantsToLeaveQueue g) (localPort g)
    (remotePort g) (localIP g) s (userId g) (nickname g) (pid g).
Definition set_userId (s : string) (g : Globals) : Globals :=
  mkGlobals (wantsToJoin g) (canJoin g) (wantsToLeaveQueue g) (localPort g)
    (remotePort g) (localIP g) (remoteIP g) s (nickname g) (pid g).
Definition set_nickname (s : string) (g : Globals) : Globals :=
  mkGlobals (wantsToJoin g) (canJoin g) (wantsToLeaveQueue g) (localPort g)
    (remotePort g) (localIP g) (remoteIP g) (userId g) s (pid g).
Definition set_pid (s : string) (g : Globals) : Globals :=
  mkGlobals (wantsToJoin g) (canJoin g) (wantsToLeaveQueue g) (localPort g)
    (remotePort g) (localIP g) (remoteIP g) (userId g) (nickname g) s.

Definition global (f : Globals -> Globals) (w : World) : World :=
  setGlobals (f (globals w)) w.

(** Writes through the client pointer. *)
Definition set_IsServer (b : bool) (cl : ClientT) : ClientT :=
  mkClient (IsActive cl) (IpAddr cl) b (HasLogin cl) (HeartTicker cl)
    (JoinTicker cl) (RedisState cl) (heartLoop cl) (joinLoop cl).
Definition set_IsActive (b : bool) (cl : ClientT) : ClientT :=
  mkClient b (IpAddr cl) (IsServer cl) (HasLogin cl) (HeartTicker cl)
    (JoinTicker cl) (RedisState cl) (heartLoop cl) (joinLoop cl).
Definition set_HeartTicker (t : option Z) (cl : ClientT) : ClientT :=
  mkClient (IsActive cl) (IpAddr cl) (IsServer cl) (HasLogin cl) t
    (JoinTicker cl) (RedisState cl) (heartLoop cl) (joinLoop cl).
Definition set_JoinTicker (t : option Z) (cl : ClientT) : ClientT :=
  mkClient (IsActive cl) (IpAddr cl) (IsServer cl) (HasLogin cl)
    (HeartTicker cl) t (RedisState cl) (heartLoop cl) (joinLoop cl).
Definition set_heartLoop (b : bool) (cl : ClientT) : ClientT :=
  mkClient (IsActive cl) (IpAddr cl) (IsServer cl) (HasLogin cl)
    (HeartTicker cl) (JoinTicker cl) (RedisState cl) b (joinLoop cl).
Definition set_joinLoop (b : bool) (cl : ClientT) : ClientT :=
  mkClient (IsActive cl) (IpAddr cl) (IsServer cl) (HasLogin cl)
    (HeartTicker cl) (JoinTicker cl) (RedisState cl) (heartLoop cl) b.

Definition client (c : nat) (f : ClientT -> ClientT) (w : World) : World :=
  setClient c (f (clients w c)) w.

(** What the durable store answers to the identity query of [EGAM]:
    [db.Prepare] fails, or [QueryRow(...).Scan(&pid, &nickname)] fails (no
    row for the account, for one) and leaves both variables as they were, or
    the row is found. *)
Inductive Lookup :=
| PrepareErr (err : string)
| ScanErr (err : string)
| ScanOk (pid nickname : string).

(** ** The handlers of package [main] *)

(** ECHO - SHARED called like some heartbeat (a UDP datagram: there is no
    session). *)
Definition ECHO (command : CommandFESL) (ip : string) (port : Z) (w : World)
  : World :=
  let answerPacket := assign
    [("TID", index (Message command) "TID");
     ("TXN", index (Message command) "TXN");
     ("IP", ip);
     ("PORT", Itoa port);
     ("ERR", "0");
     ("TYPE", "1")] in
  let w := WriteFESLUDP ip port "ECHO" answerPacket 0 w in
  logAnswer "ECHO" answerPacket 0 w.

(** ECNL - CLIENT calls when they want to leave *)
Definition ECNL (event : EventClientFESLCommand) (w : World) : World :=
  if negb (IsActive (clients w (Client event))) then Noteln "Client left" w
  else
    let msg := Message (Command event) in
    let answerPacket := assign
      [("TID", index msg "TID"); ("GID", "5459"); ("LID", index msg "LID")] in
    let w := WriteFESL (Client event) "ECNL" answerPacket 0 w in
    logAnswer "ECNL" answerPacket 0 w.

(** EGAM - CLIENT called when a client wants to join a gameserver. When
    [db.Prepare] fails the handler logs the error and returns before it
    answers; what the deferred [stmt.Close()] then does on the statement that
    was not created is the library's and is not part of this model. *)
Definition EGAM (event : EventClientFESLCommand) (db : Lookup) (w : World)
  : World :=
  if negb (IsActive (clients w (Client event))) then Noteln "Client left" w
  else
    let msg := Message (Command event) in
    let answerPacket := assign
      [("TID", index msg "TID"); ("GID", "5459"); ("LID", "1")] in
    let w := global (set_localPort (index msg "R-INT-PORT")) w in
    let w := global (set_localIP (index msg "R-INT-IP")) w in
    let w := global (set_remotePort (index msg "PORT")) w in
    let w := global (set_remoteIP (index msg "R-U-externalIp")) w in
    let w := global (set_userId (index msg "R-U-accid")) w in
    let w := Noteln ("TEH USER IS" +:+ userId (globals w)) w in
    match db with
    | PrepareErr err => Debugln err w
    | _ =>
        let w := dbCall SelectSoldier [index msg "R-U-accid"] w in
        let w :=
          match db with
          | ScanOk p n => global (set_nickname n) (global (set_pid p) w)
          | _ => w
          end in
        let w := global (set_wantsToJoin true) w in
        let w := global (set_canJoin false) w in
        let w := WriteFESL (Client event) "EGAM" answerPacket 0 w in
        logAnswer "EGAM" answerPacket 0 w
    end.

(** GLST - CLIENT called to get a list of game servers? *)
Definition GLST (event : EventClientFESLCommand) (w : World) : World :=
  if negb (IsActive (clients w (Client event))) then Noteln "Client left" w
  else Noteln "GLST was called" w.

(** The loop [for index, value := range event.Command.Message] of [CGAM]:
    every field of the message is stored, without its quotes. *)
Definition storeStripped (ns : string) (fields : list (string * string))
  (w : World) : World :=
  foldl (fun w kv => redisSet ns kv.1 (stripQuotes kv.2) w) w fields.

(** [CGAM] up to [gameLid++]: the id the call assigns. *)
Definition nextLobbyID (w : World) : Z :=
  let currentLobbyID := Redis.Get (redis w) gameServerGlobal "Lobbies" in
  let gameLid := Atoi currentLobbyID in
  wrap64 (gameLid + 1).

(** [CGAM] from [gameServer := new(core.RedisState)] to its end. The counter
    is written back last, after the answer. *)
Definition registerLobby (event : EventClientFESLCommand) (ip : string)
  (gameLid : Z) (w : World) : World :=
  let msg := Message (Command event) in
  let gameServer := "gameServer-" +:+ Itoa gameLid in
  let w := storeStripped gameServer (map_to_list msg) w in
  let w := redisSet gameServer "LID" (Itoa gameLid) w in
  let w := redisSet gameServer "IP" ip w in
  let w := redisSet gameServer "ACTIVE-PLAYERS" "0" w in
  let w := redisSet gameServer "QUEUE-LENGTH" "0" w in
  let answerPacket := assign
    [("TID", index msg "TID");
     ("MAX-PLAYERS", "16");
     ("EKEY", "O65zZ2D2A58mNrZw1hmuJw%3d%3d");
     ("UGID", "7eb6155c-ac70-4567-9fc4-732d56a9334a");
     ("JOIN", index msg "JOIN");
     ("LID", "1");
     ("SECRET", "2587913");
     ("J", "0");
     ("GID", "5459")] in
  let w := WriteFESL (Client event) "CGAM" answerPacket 0 w in
  let w := logAnswer "CGAM" answerPacket 0 w in
  redisSet gameServerGlobal "Lobbies" (Itoa gameLid) w.

(** CGAM - SERVER called to create a game *)
Definition CGAM (event : EventClientFESLCommand) (w : World) : World :=
  if negb (IsActive (clients w (Client event))) then Noteln "Client left" w
  else
    match IpAddr (clients w (Client event)) with
    | None => Errorln "Failed turning IpAddr to net.TCPAddr" w
    | Some ip => registerLobby event ip (nextLobbyID w) w
    end.

(** The answer of [GDAT]: every field but [TID] is a constant. *)
Definition gdatPacket (tid : string) : gmap string string :=
  assign
    [("TYPE", "G");
     ("AP", "15");
     ("B-U-server_port", "18569");
     ("PW", "0");
     ("B-U-avg_axis_rank", "800.800000");
     ("P", "18569");
     ("V", "1.02.1067.0");
     ("B-U-army_balance", "Balanced");
     ("B-U-avail_slots_royal", "yes");
     ("B-U-avail_slots_national", "yes");
     ("I", "45.77.79.240");
     ("B-U-data_center", "iad");
     ("HU", "1");
     ("B-U-army_distribution", "0,0,0,0,0,0,0,0,0,0,0");
     ("F", "1");
     ("B-maxObservers", "0");
     ("N", "[iad]gs1-test.revive.systems(45.77.79.240%3a18569)");
     ("NF", "0");
     ("B-version", "1.02.1067.0");
     ("B-U-server_ip", "45.77.79.240");
     ("B-U-community_name", "HeroesSV");
     ("B-U-percent_full", "0");
     ("MP", "16");
     ("B-U-ranked", "yes");
     ("B-U-easyzone", "no");
     ("JP", "0");
     ("QP", "0");
     ("HN", "gs1-test.revive.systems");
     ("GID", "5459");
     ("B-U-elo_rank", "800.800000");
     ("PL", "PC");
     ("B-U-server_state", "empty");
     ("TID", tid);
     ("B-numObservers", "0");
     ("J", "O");
     ("B-U-map", "no_vehicles");
     ("LID", "1");
     ("B-U-avg_ally_rank", "800.800000")].

(** GDAT - CLIENT called to get data about the server. The handle
    ["gameServer-" + LID] is created and never read. *)
Definition GDAT (event : EventClientFESLCommand) (w : World) : World :=
  if negb (IsActive (clients w (Client event))) then Noteln "Client left" w
  else
    let w := Noteln "GDAT WAS CALLED!" w in
    let answerPacket := gdatPacket (index (Message (Command event)) "TID") in
    let w := WriteFESL (Client event) "GDAT" answerPacket 0 w in
    logAnswer "GDAT" answerPacket 0 w.

(** LLST - CLIENT (???) unknown, potentially bookmarks *)
Definition LLST (event : EventClientFESLCommand) (w : World) : World :=
  if negb (IsActive (clients w (Client event))) then Noteln "Client left" w
  else
    let w := Noteln "LLST CALLED!" w in
    let answerPacket := assign
      [("TID", index (Message (Command event)) "TID"); ("NUM-LOBBIES", "1")] in
    let w := WriteFESL (Client event) (Query (Command event)) answerPacket 0 w in
    let ldatPacket := assign
      [("TID", "6");
       ("FAVORITE-GAMES", "0");
       ("FAVORITE-PLAYERS", "0");
       ("LID", "1");
       ("LOCALE", "en_US");
       ("MAX-GAMES", "10000");
       ("NAME", "bfwestPC02");
       ("NUM-GAMES", "1");
       ("PASSING", "0")] in
    let w := WriteFESL (Client event) "LDAT" ldatPacket 0 w in
    logAnswer "LDAT" ldatPacket 0 w.

(** USER - SHARED Called to get user data about client? *)
Definition USER (event : EventClientFESLCommand) (w : World) : World :=
  if negb (IsActive (clients w (Client event))) then Noteln "Client left" w
  else
    let answerPacket := assign
      [("TID", index (Message (Command event)) "TID");
       ("NAME", nickname (globals w));
       ("CID", userId (globals w))] in
    let w := WriteFESL (Client event) (Query (Command event)) answerPacket 0 w in
    logAnswer (Query (Command event)) answerPacket 0 w.

(** UBRA - SERVER Called to update server data *)
Definition UBRA (event : EventClientFESLCommand) (w : World) : World :=
  if negb (IsActive (clients w (Client event))) then Noteln "Client left" w
  else
    let answerPacket := assign
      [("TID", index (Message (Command event)) "TID")] in
    let w := WriteFESL (Client event) (Query (Command event)) answerPacket 0 w in
    logAnswer (Query (Command event)) answerPacket 0 w.

(** The loop of [UGAM]: every field of the message is logged and stored as
    it came. *)
Definition storeFields (ns : string) (fields : list (string * string))
  (w : World) : World :=
  foldl (fun w kv =>
           let w := Noteln ("SET " +:+ kv.1 +:+ " " +:+ kv.2) w in
           redisSet ns kv.1 kv.2 w) w fields.

(** [UGAM] before its loop: the session is marked as a server. *)
Definition markServer (event : EventClientFESLCommand) (w : World) : World :=
  let w := Noteln "yo dis a server " w in
  let w := client (Client event) (set_IsServer true) w in
  Noteln ("Updating GameServer " +:+ index (Message (Command event)) "LID") w.

(** UGAM - SERVER Called to udpate serverquery ifo *)
Definition UGAM (event : EventClientFESLCommand) (w : World) : World :=
  if negb (IsActive (clients w (Client event))) then Noteln "Client left" w
  else
    let msg := Message (Command event) in
    let gameServer := "gameServer-" +:+ index msg "LID" in
    storeFields gameServer (map_to_list msg) (markServer event w).

(** CONN - SHARED (???) called on connection. [now] is
    [time.Now().UTC().Unix()]. *)
Definition CONN (event : EventClientFESLCommand) (now : Z) (w : World)
  : World :=
  if negb (IsActive (clients w (Client event))) then Noteln "Client left" w
  else
    let msg := Message (Command event) in
    let answerPacket := assign
      [("TID", index msg "TID");
       ("TIME", Itoa now);
       ("activityTimeoutSecs", "30");
       ("PROT", index msg "PROT")] in
    let w := WriteFESL (Client event) (Query (Command event)) answerPacket 0 w in
    logAnswer (Query (Command event)) answerPacket 0 w.

(** EGRS - SERVER sent up, tell us if client is 'allowed' to join *)
Definition EGRS (event : EventClientFESLCommand) (w : World) : World :=
  if negb (IsActive (clients w (Client event))) then w
  else
    let w := Noteln "wpwww" w in
    let answerPacket := assign
      [("TID", index (Message (Command event)) "TID")] in
    WriteFESL (Client event) "EGRS" answerPacket 0 w.

(** PENT - SERVER sent up when a player joins (entitle player?) *)
Definition PENT (event : EventClientFESLCommand) (w : World) : World :=
  if negb (IsActive (clients w (Client event))) then w
  else
    let msg := Message (Command event) in
    let w := Noteln "==============" w in
    let w := Noteln "== got pent ==" w in
    let w := Noteln "==============" w in
    let answerPacket := assign
      [("TID", index msg "TID"); ("PID", index msg "PID")] in
    WriteFESL (Client event) "PENT" answerPacket 0 w.

(** UPLA - SERVER presumably "update player"? valid response reqiured *)
Definition UPLA (event : EventClientFESLCommand) (w : World) : World :=
  if negb (IsActive (clients w (Client event))) then w
  else
    let msg := Message (Command event) in
    let w := Noteln "==============" w in
    let w := Noteln "== got uPLA ==" w in
    let w := Noteln "==============" w in
    let answerPacket := assign
      [("TID", index msg "TID");
       ("PID", index msg "PID");
       ("P-cid", index msg "P-cid")] in
    let w := logged (LineMap Note answerPacket) w in
    WriteFESL (Client event) "UPLA" answerPacket 0 w.

(** [LogCommand]: the request is written to the debug dump. *)
Definition LogCommand (event : EventClientFESLCommand) (w : World) : World :=
  logged (RequestFile (Query (Command event)) (Message (Command event))) w.

(** ** The two loops started by [newClient] *)

(** The interval of the heartbeat ticker and of the join ticker, in
    seconds ([time.Second * 10] and [time.Second * 1]). *)
Definition heartbeatSeconds : Z := 10.
Definition joinPollSeconds : Z := 1.

(** [newClient]: on an active client both tickers are created and both
    goroutines are started. *)
Definition newClient (c : nat) (w : World) : World :=
  if negb (IsActive (clients w c)) then Noteln "Client left" w
  else
    let w := Noteln "Client connecting" w in
    let w := client c (set_HeartTicker (Some heartbeatSeconds)) w in
    let w := client c (set_heartLoop true) w in
    let w := client c (set_JoinTicker (Some joinPollSeconds)) w in
    client c (set_joinLoop true) w.

Definition pingPacket : gmap string string := assign [("TID", "0")].

(** One tick of [HeartTicker.C], received by the first goroutine. The loop
    tests [IsActive] before it waits and again when the tick arrives, and
    returns for good when the flag is false; a loop that has returned (or
    was never started) receives nothing. *)
Definition heartTick (c : nat) (w : World) : World :=
  if negb (heartLoop (clients w c)) then w
  else if negb (IsActive (clients w c)) then client c (set_heartLoop false) w
  else WriteFESL c "PING" pingPacket 0 w.

(** The "enter game" packet sent to a client-role session. *)
Definition egegPacket (g : Globals) : gmap string string :=
  assign
    [("PL", "pc");
     ("TICKET", "2018751182");
     ("PID", pid g);
     ("I", "45.77.79.240");
     ("P", "18569");
     ("HUID", "1");
     ("EKEY", "O65zZ2D2A58mNrZw1hmuJw%3d%3d");
     ("INT-IP", "45.77.79.240");
     ("INT-PORT", "18569");
     ("SECRET", "2587913");
     ("UGID", "7eb6155c-ac70-4567-9fc4-732d56a9334a");
     ("LID", "1");
     ("GID", "5459")].

(** The "request join" packet sent to a server-role session. *)
Definition egrqPacket (g : Globals) : gmap string string :=
  assign
    [("TID", "6");
     ("NAME", nickname g);
     ("UID", userId g);
     ("PID", pid g);
     ("TICKET", "2018751182");
     ("IP", remoteIP g);
     ("PORT", remotePort g);
     ("INT-IP", localIP g);
     ("INT-PORT", localPort g);
     ("PTYPE", "P");
     ("R-cid", userId g);
     ("cid", userId g);
     ("R-USER", nickname g);
     ("R-UID", userId g);
     ("XUID", userId g);
     ("R-XUID", userId g);
     ("R-U-accid", userId g);
     ("R-U-elo", "1");
     ("R-U-team", "1");
     ("R-U-kit", "2");
     ("R-U-lvl", "1");
     ("R-U-dataCenter", "iad");
     ("R-U-externalIp", remoteIP g);
     ("R-U-internalIp", remotePort g);
     ("R-U-category", "5");
     ("R-U-cid", userId g);
     ("R-INT-PORT", localPort g);
     ("R-INT-IP", localIP g);
     ("LID", "1");
     ("GID", "5459")].

(** The body of the join loop for a client-role session. *)
Definition pollClient (c : nat) (w : World) : World :=
  if canJoin (globals w) then
    let w := global (set_canJoin false) w in
    let w := Noteln ("SENDING EGEG TO GAME CLIENT :D " +:+ localPort (globals w)) w in
    let ap := egegPacket (globals w) in
    let w := WriteFESL c "EGEG" ap 0 w in
    let w := logAnswer "EGEG" ap 0 w in
    logged (LineMap Note ap) w
  else w.

(** The body of the join loop for a server-role session. *)
Definition pollServer (c : nat) (w : World) : World :=
  let w :=
    if wantsToJoin (globals w) then
      let w := global (set_wantsToJoin false) w in
      let w := Noteln ("SENDING EGRQ TO GAMESERVER FOR PORT " +:+ localPort (globals w)) w in
      let answerPacket2 := egrqPacket (globals w) in
      let w := WriteFESL c "EGRQ" answerPacket2 0 w in
      let w := logAnswer "EGRQ" answerPacket2 0 w in
      let w := logged (LineMap Note answerPacket2) w in
      global (set_canJoin true) w
    else w in
  if wantsToLeaveQueue (globals w) then
    let w := global (set_wantsToLeaveQueue false) w in
    let w := Noteln ("SENDING QLVT TO SERVER FOR PORT " +:+ localPort (globals w)) w in
    let ap := assign [("PID", pid (globals w)); ("LID", "1"); ("GID", "5459")] in
    logAnswer "QLVT" ap 0 w
  else w.

(** One tick of [JoinTicker.C], received by the second goroutine. *)
Definition joinTick (c : nat) (w : World) : World :=
  if negb (joinLoop (clients w c)) then w
  else if negb (IsActive (clients w c)) then client c (set_joinLoop false) w
  else if negb (IsServer (clients w c)) then pollClient c w
  else pollServer c w.

(** ** The dispatcher *)

(** What the environment supplies with a command: the answer of the
    durable store and the clock. *)
Record Env := mkEnv { dbLookup : Lookup; clock : Z }.

(** The events of the process: an event of the TCP socket or of the UDP
    socket with its name, a tick of one of the timers of a client, and the
    transport marking a connection as closed by clearing [IsActive]. The
    transport creates the client of a new connection, with [IsActive] set,
    before it raises ["newClient"]: nothing in these files sets the flag, so a
    state with open connections is a world whose clients are active, not a
    state reached from [New] by events. *)
Inductive Event :=
| Tcp (name : string) (event : EventClientFESLCommand) (env : Env)
| Udp (name : string) (command : CommandFESL) (ip : string) (port : Z)
| HeartTick (c : nat)
| JoinTick (c : nat)
| Closed (c : nat).

(** The [switch] of [run] on the name of a TCP event. *)
Definition runTcp (name : string) (event : EventClientFESLCommand) (env : Env)
  (w : World) : World :=
  if String.eqb name "newClient" then newClient (Client event) w
  else if String.eqb name "client.command.CONN" then CONN event (clock env) w
  else if String.eqb name "client.command.USER" then USER event w
  else if String.eqb name "client.command.LLST" then LLST event w
  else if String.eqb name "client.command.GDAT" then GDAT event w
  else if String.eqb name "client.command.EGAM" then EGAM event (dbLookup env) w
  else if String.eqb name "client.command.ECNL" then ECNL event w
  else if String.eqb name "client.command.CGAM" then CGAM event w
  else if String.eqb name "client.command.UBRA" then UBRA event w
  else if String.eqb name "client.command.UGAM" then UGAM event w
  else if String.eqb name "client.command.EGRS" then EGRS event w
  else if String.eqb name "client.command.GLST" then GLST event w
  else if String.eqb name "client.command.PENT" then PENT event w
  else if String.eqb name "client.command.UPLA" then UPLA event w
  else if String.eqb name "client.command" then
    let w := LogCommand event w in
    logged (LineMap Debug (Message (Command event))) w
  else logged (Line Debug name) w.

Definition runUdp (name : string) (command : CommandFESL) (ip : string)
  (port : Z) (w : World) : World :=
  if String.eqb name "command.ECHO" then ECHO command ip port w
  else if String.eqb name "command" then
    let w := logged (RequestFile (Query command) (Message command)) w in
    logged (LineMap Debug (Message command)) w
  else logged (Line Debug name) w.

(** One turn of the loop of [run], or one step of a loop of [newClient]. *)
Definition step (e : Event) (w : World) : World :=
  match e with
  | Tcp name event env => runTcp name event env w
  | Udp name command ip port => runUdp name command ip port w
  | HeartTick c => heartTick c w
  | JoinTick c => joinTick c w
  | Closed c => client c (set_IsActive false) w
  end.

(** The transport names the event of a command after its query: a command
    [q] arrives as ["client.command." + q] (and once more as
    ["client.command"], for the debug dump). *)
Definition named (e : Event) : Prop :=
  match e with
  | Tcp name event _ =>
      name = "newClient" \/ name = "client.command" \/
      name = "client.command." +:+ Query (Command event)
  | _ => True
  end.

(** What a packet written during a step can be: its peer, and its type. A
    handler answers the client of its event, under its own name or under the
    query of the command; a loop writes to its own client. *)
Definition sends (e : Event) (w : World) (s : Sent) : Prop :=
  match e with
  | Tcp name event _ =>
      IsActive (clients w (Client event)) = true /\
      peer s = TcpClient (Client event) /\
      (msgType s ∈ ["ECNL"; "EGAM"; "CGAM"; "GDAT"; "LDAT"; "EGRS"; "PENT"; "UPLA"] \/
       msgType s = Query (Command event) /\
       name ∈ ["client.command.CONN"; "client.command.USER";
               "client.command.LLST"; "client.command.UBRA"])
  | Udp _ _ ip port => peer s = UdpAddr ip port
  | HeartTick c =>
      IsActive (clients w c) = true /\ heartLoop (clients w c) = true /\
      s = mkSent (TcpClient c) "PING" pingPacket 0
  | JoinTick c =>
      IsActive (clients w c) = true /\ peer s = TcpClient c /\
      (msgType s = "EGEG" \/
       msgType s = "EGRQ" /\ wantsToJoin (globals w) = true)
  | Closed _ => False
  end.

(** A run of the process: the events one after the other. *)
Definition exec (es : list Event) (w : World) : World :=
  foldl (fun w e => step e w) w es.

(** ** Handlers that call the durable store and may panic *)

Inductive ExecResult := ExecOk | ExecErr (err : string).

(** How a handler ends: it returns, or the goroutine panics. *)
Inductive Outcome := Returned (w : World) | Panicked (w : World).

Definition final (o : Outcome) : World :=
  match o with Returned w => w | Panicked w => w end.

(** *** The second draft of [UGAM] (package [theater]) *)

Module Theater.

(** What the durable store answers to the three [Exec] calls the handler
    can make, in their order: [stmtUpdateGame], the statistics statement,
    and the statistics statement once more. *)
Record Answers := mkAnswers {
  updateGame : ExecResult;
  firstTry : ExecResult;
  secondTry : ExecResult }.

Definition deadlock : string :=
  "Error 1213: Deadlock found when trying to get lock; try restarting transaction".

(** The variables of the loop over the message. *)
Record Loop := mkLoop { world : World; args : list string; keys : Z }.

Definition iteration (gameID : string) (st : Loop) (kv : string * string)
  : Loop :=
  if String.eqb kv.1 "TID" then st
  else
    let value := stripQuotes kv.2 in
    mkLoop (redisSet (Redis.object "gdata" gameID) kv.1 value (world st))
      (args st ++ [gameID; kv.1; value]) (wrap64 (keys st + 1)).

Section UGAM.

(** The package-level [Shard], declared outside the sources. *)
Variable Shard : string.

(** UGAM - SERVER Called to udpate serverquery ifo *)
Definition UGAM (event : EventClientFESLCommand) (db : Answers) (w : World)
  : Outcome :=
  if negb (IsActive (clients w (Client event))) then
    Returned (Noteln "Client left" w)
  else
    let msg := Message (Command event) in
    let gameID := index msg "GID" in
    let w := Noteln ("Updating GameServer " +:+ gameID) w in
    let st := foldl (iteration gameID) (mkLoop w [] 0) (map_to_list msg) in
    let w := dbCall UpdateGame [index msg "GID"; Shard] (world st) in
    match updateGame db with
    | ExecErr err => Panicked (logged (Line Panic err) w)
    | ExecOk =>
        let w := dbCall (SetServerStats (keys st)) (args st) w in
        match firstTry db with
        | ExecOk => Returned w
        | ExecErr err =>
            let w := Errorln
              ("Failed to update stats for game server " +:+ gameID +:+ " " +:+ err) w in
            if String.eqb err deadlock then
              let w := dbCall (SetServerStats (keys st)) (args st) w in
              match secondTry db with
              | ExecOk => Returned w
              | ExecErr err =>
                  Returned (Errorln
                    ("Failed to update stats for game server " +:+ gameID +:+
                     " on the second try " +:+ err) w)
              end
            else Returned w
        end
    end.

End UGAM.

End Theater.

(** *** [GetStats] (package [fesl]) *)

Module Fesl.

(** A row of the result: the two columns the handler keeps, and the error
    of [rows.Scan] if there is one. *)
Record Row := mkRow {
  statsKey : string;
  statsValue : string;
  scanErr : option string }.

Inductive QueryResult := QueryErr (err : string) | QueryRows (rows : list Row).

(** [args]: the owner, the user id, then [keys.0], [keys.1], ... *)
Definition arguments (msg : gmap string string) (owner userId : string)
  (keys : Z) : list string :=
  [owner; userId] ++
  map (fun i => index msg ("keys." +:+ Itoa (Z.of_nat i) +:+ ""))
      (seq 0 (Z.to_nat keys)).

(** The variables of the loop [for rows.Next()]. *)
Record Loop := mkLoop {
  world : World;
  loginPacket : gmap string string;
  count : Z }.

Definition iteration (st : Loop) (row : Row) : Loop :=
  let w :=
    match scanErr row with
    | Some err => Errorln ("Issue with database: " +:+ err) (world st)
    | None => world st
    end in
  let n := Itoa (count st) in
  let p := <["stats." +:+ n +:+ ".key" := statsKey row]> (loginPacket st) in
  let p := <["stats." +:+ n +:+ ".value" := statsValue row]> p in
  let p := <["stats." +:+ n +:+ ".text" := statsValue row]> p in
  mkLoop w p (wrap64 (count st + 1)).

(** GetStats - Get basic stats about a soldier/owner (account holder).
    When the query fails the error is logged and [rows.Next()] is called on
    a nil result, which panics. *)
Definition GetStats (event : EventClientFESLCommand) (db : QueryResult)
  (w : World) : Outcome :=
  if negb (IsActive (clients w (Client event))) then
    Returned (Noteln "Client left" w)
  else
    let msg := Message (Command event) in
    let owner := index msg "owner" in
    let userId :=
      Redis.Get (redis w) (RedisState (clients w (Client event))) "uID" in
    let w := Noteln (index msg "owner") w in
    let packet0 := assign
      [("TXN", "GetStats"); ("ownerId", owner); ("ownerType", "1")] in
    let keys := Atoi (index msg "keys.[]") in
    let args := arguments msg owner userId keys in
    let w := dbCall (GetStatsStatement keys) args w in
    match db with
    | QueryErr err =>
        Panicked (Errorln ("Failed gettings stats for hero " +:+ owner +:+ " " +:+ err) w)
    | QueryRows rows =>
        let st := foldl iteration (mkLoop w packet0 0) rows in
        let answer := <["stats.[]" := Itoa (count st)]> (loginPacket st) in
        let w := WriteFESL (Client event) (Query (Command event)) answer
                   (PayloadID (Command event)) (world st) in
        Returned (logAnswer (Query (Command event)) answer
                    (PayloadID (Command event)) w)
    end.

End Fesl.

(** ** Runs and observations *)

(** The packets of type [ty] written to client [c], oldest first. *)
Definition isTo (c : nat) (ty : string) (s : Sent) : bool :=
  match peer s with
  | TcpClient c' => Nat.eqb c c' && String.eqb (msgType s) ty
  | UdpAddr _ _ => false
  end.

Definition sentTo (c : nat) (ty : string) (w : World)
  : list (gmap string string) :=
  map packet (filter (fun s => isTo c ty s = true) (sent w)).

Definition isHeartTick (c : nat) (e : Event) : bool :=
  match e with HeartTick c' => Nat.eqb c c' | _ => false end.

Definition isClosed (c : nat) (e : Event) : bool :=
  match e with Closed c' => Nat.eqb c c' | _ => false end.

(** The event is the dispatch of a join request. *)
Definition isEGAM (e : Event) : bool :=
  match e with
  | Tcp name _ _ => String.eqb name "client.command.EGAM"
  | _ => false
  end.

(** The number of heartbeat ticks of [c] among the events. *)
Definition heartTicks (c : nat) (es : list Event) : nat :=
  length (filter (fun e => isHeartTick c e = true) es).

(** The event is the dispatch of an update on the active client [c]: the
    one place where [IsServer] is written. *)
Definition marksServer (c : nat) (w : World) (e : Event) : bool :=
  match e with
  | Tcp name event _ =>
      String.eqb name "client.command.UGAM" && Nat.eqb c (Client event) &&
      IsActive (clients w c)
  | _ => false
  end.

(** The names that the [switch] of [run] gives a handler to. *)
Definition handled : list string :=
  ["newClient"; "client.command.CONN"; "client.command.USER";
   "client.command.LLST"; "client.command.GDAT"; "client.command.EGAM";
   "client.command.ECNL"; "client.command.CGAM"; "client.command.UBRA";
   "client.command.UGAM"; "client.command.EGRS"; "client.command.GLST";
   "client.command.PENT"; "client.command.UPLA"].

(** The record of a lobby in the store. *)
Definition lobby (w : World) (gameLid : Z) : gmap string string :=
  Redis.hash (redis w) ("gameServer-" +:+ Itoa gameLid).

(** [CGAM] calls that run one after the other. *)
Definition calls (events : list EventClientFESLCommand) (w : World) : World :=
  foldl (fun w e => CGAM e w) w events.

(** The id a [CGAM] call assigns in [w], if it gets that far. *)
Definition assigned (event : EventClientFESLCommand) (w : World) : option Z :=
  if negb (IsActive (clients w (Client event))) then None
  else
    match IpAddr (clients w (Client event)) with
    | None => None
    | Some _ => Some (nextLobbyID w)
    end.

(** The ids assigned by calls that run one after the other, in order. *)
Fixpoint lobbyIDs (events : list EventClientFESLCommand) (w : World) : list Z :=
  match events with
  | [] => []
  | e :: rest => option_list (assigned e w) ++ lobbyIDs rest (CGAM e w)
  end.

(** *** Overlapping [CGAM] calls

    [run] starts every handler with [go]. A [CGAM] goroutine reads the
    counter, and later writes the record and the counter back; another
    goroutine may run between the two. *)
Inductive Goroutine :=
| Start (event : EventClientFESLCommand)
| Assigned (event : EventClientFESLCommand) (ip : string) (gameLid : Z)
| Finished (gameLid : option Z).

Definition advance (t : Goroutine) (w : World) : Goroutine * World :=
  match t with
  | Start event =>
      if negb (IsActive (clients w (Client event))) then
        (Finished None, Noteln "Client left" w)
      else
        match IpAddr (clients w (Client event)) with
        | None => (Finished None, Errorln "Failed turning IpAddr to net.TCPAddr" w)
        | Some ip => (Assigned event ip (nextLobbyID w), w)
        end
  | Assigned event ip gameLid =>
      (Finished (Some gameLid), registerLobby event ip gameLid w)
  | Finished gameLid => (Finished gameLid, w)
  end.

(** [order] names the goroutine that takes each step. *)
Fixpoint schedule (order : list nat) (pool : list Goroutine) (w : World)
  : list Goroutine * World :=
  match order with
  | [] => (pool, w)
  | i :: rest =>
      match pool !! i with
      | Some t =>
          let (t', w') := advance t w in
          schedule rest (<[i := t']> pool) w'
      | None => schedule rest pool w
      end
  end.

(** *** Overlapping [UGAM] calls

    The [Set] calls of two goroutines reach the store in some merge of the
    two sequences. *)
Inductive Interleaving {A : Type} : list A -> list A -> list A -> Prop :=
| interleaving_nil : Interleaving [] [] []
| interleaving_left x l1 l2 l :
    Interleaving l1 l2 l -> Interleaving (x :: l1) l2 (x :: l)
| interleaving_right x l1 l2 l :
    Interleaving l1 l2 l -> Interleaving l1 (x :: l2) (x :: l).

(** The command left no trace but in the log. *)
Definition onlyLogged (w w' : World) : Prop :=
  globals w' = globals w /\ redis w' = redis w /\ clients w' = clients w /\
  sent w' = sent w /\ dbCalls w' = dbCalls w.

(** No byte of a printed number is a dot. *)
Fixpoint dotless (s : string) : Prop :=
  match s with
  | EmptyString => True
  | String c rest => c <> "."%char /\ dotless rest
  end.

(** The state a loop of [Set] calls leaves in its namespace: the fields in
    order, a later one over an earlier one; [f] is what the loop does to a
    value before it stores it. *)
Definition stored (f : string -> string) (fields : list (string * string))
  (h : gmap string string) : gmap string string :=
  foldl (fun h kv => <[kv.1 := f kv.2]> h) h fields.

(** ** Scenarios *)

Module Scenario.

(** An open connection from [ip]. *)
Definition connected (ip : string) : ClientT :=
  mkClient true (Some ip) false false None None "" false false.

(** Two game servers are connected, as clients 1 and 2. *)
Definition twoServers : World :=
  setClient 2 (connected "10.0.0.2") (setClient 1 (connected "10.0.0.1") New).

Definition create1 : EventClientFESLCommand :=
  mkEvent 1 (mkCommand "CGAM"
    (assign [("TID", "3"); ("NAME", "first"); ("IP", "6.6.6.6")]) 0).

Definition create2 : EventClientFESLCommand :=
  mkEvent 2 (mkCommand "CGAM" (assign [("TID", "4"); ("NAME", "second")]) 0).

(** A game client is connected as well, as client 3. *)
Definition threeClients : World :=
  setClient 3 (connected "10.0.0.3") twoServers.

(** The server of lobby 1 reports a new map, in quotes as servers send it. *)
Definition update : EventClientFESLCommand :=
  mkEvent 1 (mkCommand "UGAM"
    (assign [("TID", "5"); ("LID", "1"); ("GID", "5459");
             ("B-U-map", String dquote ("village" +:+ String dquote ""))]) 0).

(** An update without [TID] and without quotes. *)
Definition plainUpdate : EventClientFESLCommand :=
  mkEvent 1 (mkCommand "UGAM"
    (assign [("LID", "1"); ("GID", "5459"); ("B-U-map", "village")]) 0).

(** Another update of lobby 1, of another field. *)
Definition otherUpdate : EventClientFESLCommand :=
  mkEvent 2 (mkCommand "UGAM"
    (assign [("LID", "1"); ("GID", "5459"); ("B-U-server_state", "full")]) 0).

Definition query : EventClientFESLCommand :=
  mkEvent 3 (mkCommand "GDAT" (assign [("TID", "9"); ("LID", "1")]) 0).

(** The statistics statement meets a deadlock at both tries. *)
Definition deadlocks : Theater.Answers :=
  Theater.mkAnswers ExecOk (ExecErr Theater.deadlock) (ExecErr Theater.deadlock).

(** A game client asks to join, for the account 42. *)
Definition join : EventClientFESLCommand :=
  mkEvent 3 (mkCommand "EGAM"
    (assign [("TID", "7"); ("R-U-accid", "42"); ("R-INT-PORT", "18570");
             ("R-INT-IP", "192.168.0.3"); ("PORT", "18570");
             ("R-U-externalIp", "10.0.0.3")]) 0).

Definition whoami : EventClientFESLCommand :=
  mkEvent 2 (mkCommand "USER" (assign [("TID", "8")]) 0).

(** The answers of the durable store and the clock when nothing is found. *)
Definition noRow : Env := mkEnv (ScanErr "sql: no rows in result set") 0.

(** The transport has announced the three connections and the server of
    lobby 1 has sent its update. *)
Definition lobbyOpen : World :=
  exec [Tcp "newClient" (mkEvent 1 (mkCommand "" ∅ 0)) noRow;
        Tcp "newClient" (mkEvent 2 (mkCommand "" ∅ 0)) noRow;
        Tcp "newClient" (mkEvent 3 (mkCommand "" ∅ 0)) noRow;
        Tcp "client.command.UGAM" plainUpdate noRow] threeClients.

(** An update aimed at the namespace of the counter. *)
Definition resetCounter : EventClientFESLCommand :=
  mkEvent 1 (mkCommand "UGAM" (assign [("LID", "config"); ("Lobbies", "0")]) 0).

(** The stats request of client 3 for two keys of hero 77. *)
Definition stats : EventClientFESLCommand :=
  mkEvent 3 (mkCommand "rank"
    (assign [("TXN", "GetStats"); ("owner", "77"); ("keys.[]", "2");
             ("keys.0", "level"); ("keys.1", "xp")]) 5).

Definition statRows : list Fesl.Row :=
  [Fesl.mkRow "level" "12" None; Fesl.mkRow "xp" "3400" None].

(** The second server reports on a lobby of its own, which marks its
    session as a server too. *)
Definition secondLobby : EventClientFESLCommand :=
  mkEvent 2 (mkCommand "UGAM"
    (assign [("LID", "2"); ("GID", "5460"); ("B-U-map", "seaside")]) 0).

Definition bothServers : World :=
  step (Tcp "client.command.UGAM" secondLobby noRow) lobbyOpen.

(** The game client of session 3 asks to leave the queue. *)
Definition leave : EventClientFESLCommand :=
  mkEvent 3 (mkCommand "ECNL" (assign [("TID", "11"); ("LID", "1")]) 0).

End Scenario.

(** * Properties *)

(** ** Go primitives on examples *)

Example Itoa_examples :
  Itoa 0 = "0" /\ Itoa 42 = "42" /\ Itoa (-7) = "-7".
Proof. repeat split. Qed.

Example Atoi_examples :
  Atoi "0" = 0 /\ Atoi "+15" = 15 /\ Atoi "-3" = -3 /\ Atoi "007" = 7 /\
  Atoi "" = 0 /\ Atoi "-" = 0 /\ Atoi "+-5" = 0 /\ Atoi "12a" = 0 /\
  Atoi "99999999999999999999" = maxInt.
Proof. repeat split. Qed.

Example stripQuotes_examples :
  stripQuotes (String dquote ("abc" +:+ String dquote "")) = "abc" /\
  stripQuotes (String dquote "") = "" /\
  stripQuotes ("a" +:+ String dquote "b") = "a" +:+ String dquote "b" /\
  stripQuotes "plain" = "plain".
Proof. repeat split. Qed.

(** ** Decimal conversions *)

Section Decimal.

Lemma to_int_proper z :
  Z.to_int z <> Decimal.Pos Decimal.Nil /\ Z.to_int z <> Decimal.Neg Decimal.Nil.
Proof.
  destruct z as [|p|p]; simpl; split; try discriminate;
    intros [= H]; exact (DecimalPos.Unsigned.to_uint_nonnil p H).
Qed.

Lemma parse_Itoa z : NilZero.int_of_string (Itoa z) = Some (Z.to_int z).
Proof.
  unfold Itoa. destruct (to_int_proper z). by apply NilZero.isi.
Qed.

Lemma clamp64_id z : minInt <= z <= maxInt -> clamp64 z = z.
Proof.
  intros [Hlo Hhi]. unfold clamp64.
  destruct (Z.ltb_spec z minInt); [lia|].
  destruct (Z.ltb_spec maxInt z); [lia|]. done.
Qed.

Lemma wrap64_id z : minInt <= z <= maxInt -> wrap64 z = z.
Proof.
  unfold wrap64, minInt, maxInt. intros Hz.
  rewrite Z.mod_small; lia.
Qed.

(** Reading back a printed [int] gives the same [int]. *)
Lemma Atoi_Itoa z : minInt <= z <= maxInt -> Atoi (Itoa z) = z.
Proof.
  intros Hz. pose proof (parse_Itoa z) as Hp. unfold Atoi.
  destruct (Itoa z) as [|a s'] eqn:Hs; [discriminate|].
  destruct (Ascii.eqb_spec a "+"%char) as [->|Hne].
  - exfalso. simpl in Hp. destruct (NilEmpty.uint_of_string s'); discriminate.
  - rewrite Hp. rewrite DecimalZ.of_to. by apply clamp64_id.
Qed.

Lemma Itoa_inj x y :
  minInt <= x <= maxInt -> minInt <= y <= maxInt -> Itoa x = Itoa y -> x = y.
Proof.
  intros Hx Hy Heq. rewrite <- (Atoi_Itoa x), <- (Atoi_Itoa y) by done.
  by rewrite Heq.
Qed.

(** No printed number is the word of the counter's namespace. *)
Lemma Itoa_not_config z : Itoa z <> "config".
Proof.
  intros Heq. pose proof (parse_Itoa z) as Hp. rewrite Heq in Hp. discriminate.
Qed.

End Decimal.

(** ** The store *)

Section Store.

Implicit Types (r : gmap string (gmap string string)) (ns key value : string).

Lemma hash_Put_eq r ns key value :
  Redis.hash (Redis.Put r ns key value) ns = <[key := value]> (Redis.hash r ns).
Proof. unfold Redis.hash, Redis.Put. by rewrite lookup_insert_eq. Qed.

Lemma hash_Put_ne r ns ns' key value :
  ns <> ns' -> Redis.hash (Redis.Put r ns key value) ns' = Redis.hash r ns'.
Proof. intros Hne. unfold Redis.hash, Redis.Put. by rewrite lookup_insert_ne. Qed.

Lemma Get_Put_eq r ns key value :
  Redis.Get (Redis.Put r ns key value) ns key = value.
Proof. unfold Redis.Get, index. by rewrite hash_Put_eq, lookup_insert_eq. Qed.

Lemma Get_Put_ne r ns key key' value :
  key <> key' ->
  Redis.Get (Redis.Put r ns key value) ns key' = Redis.Get r ns key'.
Proof.
  intros Hne. unfold Redis.Get, index. by rewrite hash_Put_eq, lookup_insert_ne.
Qed.

Lemma Get_Put_other r ns ns' key key' value :
  ns <> ns' ->
  Redis.Get (Redis.Put r ns key value) ns' key' = Redis.Get r ns' key'.
Proof. intros Hne. unfold Redis.Get. by rewrite hash_Put_ne. Qed.

End Store.

(** ** The loops over a message *)

Section Loops.

Variable ns : string.

Lemma storeFields_hash fields w :
  Redis.hash (redis (storeFields ns fields w)) ns =
  stored id fields (Redis.hash (redis w) ns).
Proof.
  revert w. induction fields as [|kv fields IH]; intros w; [done|].
  cbn [storeFields foldl stored]. unfold storeFields in IH. rewrite IH.
  cbn. by rewrite hash_Put_eq.
Qed.

Lemma storeStripped_hash fields w :
  Redis.hash (redis (storeStripped ns fields w)) ns =
  stored stripQuotes fields (Redis.hash (redis w) ns).
Proof.
  revert w. induction fields as [|kv fields IH]; intros w; [done|].
  cbn [storeStripped foldl stored]. unfold storeStripped in IH. rewrite IH.
  cbn. by rewrite hash_Put_eq.
Qed.

Lemma storeFields_other fields w ns' :
  ns <> ns' ->
  Redis.hash (redis (storeFields ns fields w)) ns' = Redis.hash (redis w) ns'.
Proof.
  intros Hne. revert w. induction fields as [|kv fields IH]; intros w; [done|].
  cbn [storeFields foldl]. unfold storeFields in IH. rewrite IH.
  cbn. by rewrite hash_Put_ne.
Qed.

Lemma storeStripped_other fields w ns' :
  ns <> ns' ->
  Redis.hash (redis (storeStripped ns fields w)) ns' = Redis.hash (redis w) ns'.
Proof.
  intros Hne. revert w. induction fields as [|kv fields IH]; intros w; [done|].
  cbn [storeStripped foldl]. unfold storeStripped in IH. rewrite IH.
  cbn. by rewrite hash_Put_ne.
Qed.

(** A key that the loop sets, always to the same value, holds that value at
    the end. *)
Lemma stored_agree f fields h key value :
  key ∈ fields.*1 ->
  (forall v, (key, v) ∈ fields -> v = value) ->
  stored f fields h !! key = Some (f value).
Proof.
  revert h. induction fields as [|kv fields IH] using rev_ind; intros h Hin Hall.
  - by apply elem_of_nil in Hin.
  - unfold stored. rewrite foldl_app. cbn [foldl].
    destruct (decide (kv.1 = key)) as [Heq|Hne].
    + rewrite Heq, lookup_insert_eq. f_equal. f_equal. apply Hall.
      apply elem_of_app. right. destruct kv; simpl in *; subst. by apply list_elem_of_singleton.
    + rewrite lookup_insert_ne by done. apply IH.
      * rewrite fmap_app in Hin. apply elem_of_app in Hin as [Hin|Hin]; [done|].
        cbn in Hin. apply list_elem_of_singleton in Hin. congruence.
      * intros v Hv. apply Hall. apply elem_of_app. by left.
Qed.

Lemma stored_absent f fields h key :
  key ∉ fields.*1 -> stored f fields h !! key = h !! key.
Proof.
  revert h. induction fields as [|kv fields IH]; intros h Hnin; [done|].
  cbn [stored foldl]. cbn in Hnin. apply not_elem_of_cons in Hnin as [Hne Hnin].
  unfold stored in IH. rewrite IH by done. by rewrite lookup_insert_ne.
Qed.

(** Over the fields of a map the order does not matter. *)
Lemma stored_map f (m h : gmap string string) :
  stored f (map_to_list m) h = (f <$> m) ∪ h.
Proof.
  apply map_eq. intros key. rewrite lookup_union, lookup_fmap.
  destruct (m !! key) as [value|] eqn:Hm.
  - rewrite (stored_agree f _ h key value).
    + cbn. by destruct (h !! key).
    + apply list_elem_of_fmap. exists (key, value). split; [done|].
      by apply elem_of_map_to_list.
    + intros v Hv. apply elem_of_map_to_list in Hv. congruence.
  - rewrite stored_absent.
    + cbn. by destruct (h !! key).
    + intros Hin. apply list_elem_of_fmap in Hin as [[k v] [-> Hin]].
      apply elem_of_map_to_list in Hin. cbn in Hm. congruence.
Qed.

End Loops.

(** ** Creating a lobby *)

Section CreateLobby.

Lemma lobby_not_global gameLid : "gameServer-" +:+ Itoa gameLid <> gameServerGlobal.
Proof. unfold gameServerGlobal. cbn. intros [= H]. by apply Itoa_not_config in H. Qed.

Lemma lobby_inj x y :
  minInt <= x <= maxInt -> minInt <= y <= maxInt ->
  "gameServer-" +:+ Itoa x = "gameServer-" +:+ Itoa y -> x = y.
Proof. intros Hx Hy. cbn. intros [= H]. by apply Itoa_inj. Qed.

(** The record [registerLobby] leaves under the id it was given. *)
Lemma registerLobby_record event ip gameLid w :
  lobby (registerLobby event ip gameLid w) gameLid =
  <["QUEUE-LENGTH" := "0"]> (<["ACTIVE-PLAYERS" := "0"]> (<["IP" := ip]>
    (<["LID" := Itoa gameLid]>
       (stored stripQuotes (map_to_list (Message (Command event)))
          (lobby w gameLid))))).
Proof.
  unfold lobby, registerLobby. cbn -[Itoa String.append map_to_list Redis.Put Redis.hash Redis.Get storeStripped].
  rewrite hash_Put_ne by (intros H; by apply (lobby_not_global gameLid)).
  rewrite !hash_Put_eq. by rewrite storeStripped_hash.
Qed.

(** Every other record is left as it was. *)
Lemma registerLobby_other event ip gameLid w ns :
  ns <> "gameServer-" +:+ Itoa gameLid -> ns <> gameServerGlobal ->
  Redis.hash (redis (registerLobby event ip gameLid w)) ns = Redis.hash (redis w) ns.
Proof.
  intros Hne Hng. unfold registerLobby. cbn -[Itoa String.append map_to_list Redis.Put Redis.hash Redis.Get storeStripped].
  rewrite !hash_Put_ne by done. by rewrite storeStripped_other.
Qed.

(** The counter holds the id when the call ends. *)
Lemma registerLobby_counter event ip gameLid w :
  Redis.Get (redis (registerLobby event ip gameLid w)) gameServerGlobal "Lobbies"
  = Itoa gameLid.
Proof.
  unfold registerLobby. cbn -[Itoa String.append map_to_list Redis.Put Redis.hash Redis.Get storeStripped].
  apply Get_Put_eq.
Qed.

Lemma nextLobbyID_counter w n :
  Redis.Get (redis w) gameServerGlobal "Lobbies" = Itoa n ->
  0 <= n < maxInt -> nextLobbyID w = n + 1.
Proof.
  intros Hc Hn. unfold nextLobbyID. rewrite Hc.
  rewrite Atoi_Itoa by (unfold minInt, maxInt in *; lia).
  apply wrap64_id. unfold minInt, maxInt in *; lia.
Qed.


Lemma CGAM_registers event ip w :
  IsActive (clients w (Client event)) = true ->
  IpAddr (clients w (Client event)) = Some ip ->
  CGAM event w = registerLobby event ip (nextLobbyID w) w /\
  assigned event w = Some (nextLobbyID w).
Proof. intros Hon Hip. unfold CGAM, assigned. by rewrite Hon, Hip. Qed.

Lemma CGAM_rejects event w :
  assigned event w = None -> redis (CGAM event w) = redis w.
Proof.
  unfold CGAM, assigned.
  destruct (IsActive (clients w (Client event))); [|done].
  by destruct (IpAddr (clients w (Client event))).
Qed.

(** A call moves the counter up by one, or leaves the store alone. *)
Lemma CGAM_counter event w n :
  Redis.Get (redis w) gameServerGlobal "Lobbies" = Itoa n ->
  0 <= n < maxInt ->
  (assigned event w = Some (n + 1) /\
   Redis.Get (redis (CGAM event w)) gameServerGlobal "Lobbies" = Itoa (n + 1)) \/
  (assigned event w = None /\ redis (CGAM event w) = redis w).
Proof.
  intros Hc Hn. destruct (assigned event w) as [i|] eqn:Hid.
  - left. unfold assigned in Hid.
    destruct (IsActive (clients w (Client event))) eqn:Hon; [|done].
    destruct (IpAddr (clients w (Client event))) as [ip|] eqn:Hip; [|done].
    cbn in Hid. destruct (CGAM_registers event ip w Hon Hip) as [-> _].
    rewrite (nextLobbyID_counter w n Hc Hn) in *.
    split; [congruence|]. apply registerLobby_counter.
  - right. split; [done|]. by apply CGAM_rejects.
Qed.

(** A call leaves the record of every id up to the counter as it was. *)
Lemma CGAM_keeps event w n j :
  Redis.Get (redis w) gameServerGlobal "Lobbies" = Itoa n ->
  0 <= n < maxInt -> 0 <= j <= n ->
  lobby (CGAM event w) j = lobby w j.
Proof.
  intros Hc Hn Hj. unfold lobby.
  destruct (assigned event w) as [i|] eqn:Hid.
  - unfold assigned in Hid.
    destruct (IsActive (clients w (Client event))) eqn:Hon; [|done].
    destruct (IpAddr (clients w (Client event))) as [ip|] eqn:Hip; [|done].
    destruct (CGAM_registers event ip w Hon Hip) as [-> _].
    rewrite (nextLobbyID_counter w n Hc Hn).
    apply registerLobby_other; [|apply lobby_not_global].
    intros Heq. apply lobby_inj in Heq; unfold minInt, maxInt in *; lia.
  - by rewrite CGAM_rejects.
Qed.

Lemma calls_app before after w :
  calls (before ++ after) w = calls after (calls before w).
Proof. unfold calls. apply foldl_app. Qed.

(** Calls that run one after the other: the ids lie above the old counter
    and up to the new one, in increasing order, and the records of the ids
    up to the old counter are kept. *)
Lemma calls_sequential events : forall w n,
  Redis.Get (redis w) gameServerGlobal "Lobbies" = Itoa n ->
  0 <= n -> n + Z.of_nat (length events) <= maxInt ->
  exists n',
    n <= n' <= n + Z.of_nat (length events) /\
    Redis.Get (redis (calls events w)) gameServerGlobal "Lobbies" = Itoa n' /\
    Forall (fun i => n < i <= n') (lobbyIDs events w) /\
    StronglySorted Z.lt (lobbyIDs events w) /\
    (forall j, 0 <= j <= n -> lobby (calls events w) j = lobby w j).
Proof.
  induction events as [|e events IH]; intros w n Hc Hn Hlen.
  - exists n. cbn. repeat split; try done; try lia. constructor.
  - cbn [length] in Hlen. rewrite Nat2Z.inj_succ in Hlen.
    assert (Hlt : 0 <= n < maxInt) by lia.
    cbn [lobbyIDs calls foldl]. fold (calls events (CGAM e w)).
    destruct (CGAM_counter e w n Hc Hlt) as [[Hid Hc']|[Hid Hr]].
    + destruct (IH (CGAM e w) (n + 1) Hc') as (n' & Hn' & Hcn & Hall & Hsort & Hkeep);
        [lia|lia|].
      exists n'. rewrite Hid. cbn [option_list app length].
      repeat split; try lia; try done.
      * constructor; [lia|]. eapply List.Forall_impl; [|exact Hall]. cbn. lia.
      * constructor; [done|]. eapply List.Forall_impl; [|exact Hall]. cbn. lia.
      * intros j Hj. rewrite Hkeep by lia. by apply (CGAM_keeps e w n).
    + assert (Hc' : Redis.Get (redis (CGAM e w)) gameServerGlobal "Lobbies" = Itoa n)
        by (by rewrite Hr).
      destruct (IH (CGAM e w) n Hc') as (n' & Hn' & Hcn & Hall & Hsort & Hkeep);
        [lia|lia|].
      exists n'. rewrite Hid. cbn [option_list app length].
      repeat split; try lia; try done.
      intros j Hj. rewrite Hkeep by lia. by apply (CGAM_keeps e w n).
Qed.

Lemma sorted_NoDup (l : list Z) : StronglySorted Z.lt l -> NoDup l.
Proof.
  induction 1 as [|x l Hs IH Hall]; constructor; [|done].
  intros Hin. rewrite List.Forall_forall in Hall.
  apply list_elem_of_In in Hin. specialize (Hall x Hin). lia.
Qed.


(** C7. A [CGAM] call from an active session on a TCP connection stores,
    in the record of the lobby id it assigns, the address of the connection
    under [IP], whatever the message says under [IP], and ["0"] under
    [ACTIVE-PLAYERS] and [QUEUE-LENGTH]. *)
Theorem CGAM_stores_observed_address event ip w :
  IsActive (clients w (Client event)) = true ->
  IpAddr (clients w (Client event)) = Some ip ->
  lobby (CGAM event w) (nextLobbyID w) !! "IP" = Some ip /\
  lobby (CGAM event w) (nextLobbyID w) !! "ACTIVE-PLAYERS" = Some "0" /\
  lobby (CGAM event w) (nextLobbyID w) !! "QUEUE-LENGTH" = Some "0".
Proof.
  intros Hon Hip. destruct (CGAM_registers event ip w Hon Hip) as [-> _].
  rewrite registerLobby_record. by simplify_map_eq.
Qed.

Lemma CGAM_stores_observed_address_witness :
  lobby (CGAM Scenario.create1 Scenario.twoServers)
    (nextLobbyID Scenario.twoServers) !! "IP" = Some "10.0.0.1" /\
  lobby (CGAM Scenario.create1 Scenario.twoServers)
    (nextLobbyID Scenario.twoServers) !! "ACTIVE-PLAYERS" = Some "0" /\
  lobby (CGAM Scenario.create1 Scenario.twoServers)
    (nextLobbyID Scenario.twoServers) !! "QUEUE-LENGTH" = Some "0".
Proof.
  apply (CGAM_stores_observed_address Scenario.create1 "10.0.0.1"
           Scenario.twoServers); reflexivity.
Defined.

(** C1, for calls that do not overlap. When [CGAM] calls run one after the
    other from a counter that holds the decimal of [n >= 0], and the counter
    stays within the 64 bit [int], the ids they assign are strictly
    increasing, hence pairwise distinct, and the record of an id assigned
    before (one up to [n], or one assigned earlier in the run) is the same at
    the end of the run as it was before the later calls. *)
Theorem CGAM_sequential_ids events w n :
  Redis.Get (redis w) gameServerGlobal "Lobbies" = Itoa n ->
  0 <= n -> n + Z.of_nat (length events) <= maxInt ->
  StronglySorted Z.lt (lobbyIDs events w) /\
  NoDup (lobbyIDs events w) /\
  (forall before after j,
      events = (before ++ after)%list ->
      0 <= j <= n \/ j ∈ lobbyIDs before w ->
      lobby (calls events w) j = lobby (calls before w) j).
Proof.
  intros Hc Hn Hlen.
  destruct (calls_sequential events w n Hc Hn Hlen) as (n' & _ & _ & _ & Hsort & _).
  split; [done|]. split; [by apply sorted_NoDup|].
  intros before after j -> Hj. rewrite calls_app.
  rewrite length_app, Nat2Z.inj_add in Hlen.
  destruct (calls_sequential before w n Hc Hn) as (m & Hm & Hcm & Hall & _ & _);
    [lia|].
  destruct (calls_sequential after (calls before w) m Hcm) as (_ & _ & _ & _ & _ & Hkeep);
    [lia|lia|].
  apply Hkeep. destruct Hj as [Hj|Hj]; [lia|].
  rewrite List.Forall_forall in Hall. apply list_elem_of_In in Hj.
  specialize (Hall j Hj). lia.
Qed.

Lemma CGAM_sequential_ids_witness :
  StronglySorted Z.lt
    (lobbyIDs [Scenario.create1; Scenario.create2] Scenario.twoServers) /\
  NoDup (lobbyIDs [Scenario.create1; Scenario.create2] Scenario.twoServers) /\
  (forall before after j,
      [Scenario.create1; Scenario.create2] = (before ++ after)%list ->
      0 <= j <= 0 \/ j ∈ lobbyIDs before Scenario.twoServers ->
      lobby (calls [Scenario.create1; Scenario.create2] Scenario.twoServers) j =
      lobby (calls before Scenario.twoServers) j).
Proof.
  apply (CGAM_sequential_ids [Scenario.create1; Scenario.create2]
           Scenario.twoServers 0);
    [reflexivity | lia | unfold maxInt; simpl; lia].
Defined.

(** Two calls that overlap: each reads the counter before the other writes
    it back. Both are assigned the id 1, and the second call replaces the
    record the first one has written. *)
Lemma CGAM_overlapping_calls_share_id :
  let pool := [Start Scenario.create1; Start Scenario.create2] in
  let first_done := schedule [0; 1; 0]%nat pool Scenario.twoServers in
  let both_done := schedule [0; 1; 0; 1]%nat pool Scenario.twoServers in
  Client Scenario.create1 <> Client Scenario.create2 /\
  both_done.1 = [Finished (Some 1); Finished (Some 1)] /\
  ~ NoDup [1; 1] /\
  lobby first_done.2 1 !! "NAME" = Some "first" /\
  lobby first_done.2 1 !! "IP" = Some "10.0.0.1" /\
  lobby both_done.2 1 !! "NAME" = Some "second" /\
  lobby both_done.2 1 !! "IP" = Some "10.0.0.2".
Proof.
  cbv zeta. split; [discriminate|]. split; [vm_compute; reflexivity|].
  split; [|split; [|split; [|split]]; vm_compute; reflexivity].
  intros Hnd. inversion Hnd as [|? ? Hnin _]. apply Hnin. by left.
Qed.

End CreateLobby.

(** ** Updating a lobby *)

Section UpdateLobby.

Lemma markServer_redis event w : redis (markServer event w) = redis w.
Proof. done. Qed.

Lemma UGAM_record event w :
  IsActive (clients w (Client event)) = true ->
  Redis.hash (redis (UGAM event w))
    ("gameServer-" +:+ index (Message (Command event)) "LID") =
  Message (Command event) ∪
  Redis.hash (redis w) ("gameServer-" +:+ index (Message (Command event)) "LID").
Proof.
  intros Hon. unfold UGAM. rewrite Hon. cbn [negb].
  rewrite storeFields_hash, markServer_redis, stored_map.
  by rewrite map_fmap_id.
Qed.

Lemma Interleaving_elem {A} (l1 l2 l : list A) x :
  Interleaving l1 l2 l -> x ∈ l <-> x ∈ l1 \/ x ∈ l2.
Proof.
  induction 1 as [|y l1 l2 l _ IH|y l1 l2 l _ IH].
  - rewrite !elem_of_nil. tauto.
  - rewrite !elem_of_cons, IH. tauto.
  - rewrite !elem_of_cons, IH. tauto.
Qed.

(** Merged [Set] calls of two messages: a key holds the value of the message
    that has it, when the other message does not have it or has it with the
    same value. *)
Lemma merged_reflects ns (m1 m2 : gmap string string) order w key value :
  Interleaving (map_to_list m1) (map_to_list m2) order ->
  m1 !! key = Some value /\ (m2 !! key = None \/ m2 !! key = Some value) \/
  m2 !! key = Some value /\ (m1 !! key = None \/ m1 !! key = Some value) ->
  Redis.Get (redis (storeFields ns order w)) ns key = value.
Proof.
  intros Hmerge Hkey. unfold Redis.Get, index.
  rewrite storeFields_hash, (stored_agree id _ _ key value); [done| |].
  - apply list_elem_of_fmap. exists (key, value). split; [done|].
    apply (Interleaving_elem _ _ _ _ Hmerge).
    rewrite !elem_of_map_to_list. tauto.
  - intros v Hv. apply (Interleaving_elem _ _ _ _ Hmerge) in Hv.
    rewrite !elem_of_map_to_list in Hv.
    destruct Hkey as [[H1 [H2|H2]]|[H2 [H1|H1]]], Hv as [Hv|Hv]; congruence.
Qed.

Lemma GDAT_answer event w :
  IsActive (clients w (Client event)) = true ->
  sent (GDAT event w) =
  (sent w ++ [mkSent (TcpClient (Client event)) "GDAT"
               (gdatPacket (index (Message (Command event)) "TID")) 0])%list.
Proof. intros Hon. unfold GDAT. by rewrite Hon. Qed.

(** C3, for the record in the store. After [UGAM] the record of the lobby
    holds every field of the message with its value, and when the [Set]
    calls of two updates of one lobby are merged in any order, a field keeps
    the value of the update that has it as long as the other update does not
    set it to something else. The answer of [GDAT] is not read from the
    record: it is the fixed packet with the [TID] of the query. *)
Theorem UGAM_then_record_reflects update other order query w w' :
  IsActive (clients w (Client update)) = true ->
  IsActive (clients w' (Client query)) = true ->
  Interleaving (map_to_list (Message (Command update)))
    (map_to_list (Message (Command other))) order ->
  (forall key value,
      Message (Command update) !! key = Some value ->
      Redis.Get (redis (UGAM update w))
        ("gameServer-" +:+ index (Message (Command update)) "LID") key = value) /\
  (forall key value,
      Message (Command update) !! key = Some value /\
        (Message (Command other) !! key = None \/
         Message (Command other) !! key = Some value) \/
      Message (Command other) !! key = Some value /\
        (Message (Command update) !! key = None \/
         Message (Command update) !! key = Some value) ->
      Redis.Get
        (redis (storeFields
                  ("gameServer-" +:+ index (Message (Command update)) "LID")
                  order (markServer other (markServer update w))))
        ("gameServer-" +:+ index (Message (Command update)) "LID") key = value) /\
  sent (GDAT query w') =
  (sent w' ++ [mkSent (TcpClient (Client query)) "GDAT"
                (gdatPacket (index (Message (Command query)) "TID")) 0])%list.
Proof.
  intros Hon Hq Hmerge. split; [|split].
  - intros key value Hkey. unfold Redis.Get, index.
    rewrite UGAM_record by done. rewrite lookup_union, Hkey.
    by destruct (Redis.hash _ _ !! key).
  - intros key value Hkey. by eapply merged_reflects.
  - by apply GDAT_answer.
Qed.

Lemma Interleaving_app {A} (l1 l2 : list A) : Interleaving l1 l2 (l1 ++ l2).
Proof.
  induction l1 as [|x l1 IH]; cbn.
  - induction l2; by constructor.
  - by constructor.
Qed.

Lemma UGAM_then_record_reflects_witness :
  Redis.Get (redis (UGAM Scenario.plainUpdate Scenario.threeClients))
    "gameServer-1" "B-U-map" = "village" /\
  sent (GDAT Scenario.query Scenario.threeClients) =
  (sent Scenario.threeClients ++
   [mkSent (TcpClient 3) "GDAT" (gdatPacket "9") 0])%list.
Proof.
  destruct (UGAM_then_record_reflects Scenario.plainUpdate Scenario.otherUpdate
              _ Scenario.query Scenario.threeClients Scenario.threeClients
              eq_refl eq_refl (Interleaving_app _ _)) as (Hrecord & _ & Hanswer).
  split; [|exact Hanswer].
  apply (Hrecord "B-U-map" "village"). reflexivity.
Defined.

(** The update is in the record, and the one answer of [GDAT] to the
    client still names the map it always names. *)
Lemma GDAT_ignores_update :
  let w := GDAT Scenario.query (UGAM Scenario.plainUpdate Scenario.threeClients) in
  Message (Command Scenario.plainUpdate) !! "B-U-map" = Some "village" /\
  Redis.Get (redis w) "gameServer-1" "B-U-map" = "village" /\
  map (fun p : gmap string string => p !! "B-U-map") (sentTo 3 "GDAT" w) =
  [Some "no_vehicles"].
Proof. cbv zeta. split; [|split]; vm_compute; reflexivity. Qed.

(** *** The second draft *)

Lemma iteration_frame gameID fields st :
  let st' := foldl (Theater.iteration gameID) st fields in
  globals (Theater.world st') = globals (Theater.world st) /\
  clients (Theater.world st') = clients (Theater.world st) /\
  sent (Theater.world st') = sent (Theater.world st) /\
  logs (Theater.world st') = logs (Theater.world st) /\
  dbCalls (Theater.world st') = dbCalls (Theater.world st).
Proof.
  revert st. induction fields as [|kv fields IH]; intros st; [done|].
  cbn [foldl]. cbv zeta in IH. destruct (IH (Theater.iteration gameID st kv))
    as (-> & -> & -> & -> & ->).
  unfold Theater.iteration. by destruct (String.eqb kv.1 "TID").
Qed.

Lemma iteration_hash gameID fields st :
  Redis.hash (redis (Theater.world (foldl (Theater.iteration gameID) st fields)))
    (Redis.object "gdata" gameID) =
  stored stripQuotes (filter (fun kv => kv.1 <> "TID") fields)
    (Redis.hash (redis (Theater.world st)) (Redis.object "gdata" gameID)).
Proof.
  revert st. induction fields as [|kv fields IH]; intros st; [done|].
  cbn [foldl]. rewrite IH, filter_cons. unfold Theater.iteration.
  destruct (String.eqb_spec kv.1 "TID") as [Heq|Hne].
  - by rewrite decide_False by (by intros ?).
  - rewrite decide_True by done. cbn -[Redis.hash Redis.Put Redis.object].
    by rewrite hash_Put_eq.
Qed.

Lemma stored_without_TID f (m h : gmap string string) :
  stored f (filter (fun kv => kv.1 <> "TID") (map_to_list m)) h =
  (f <$> delete "TID" m) ∪ h.
Proof.
  apply map_eq. intros key. rewrite lookup_union, lookup_fmap.
  destruct (delete "TID" m !! key) as [value|] eqn:Hm.
  - apply lookup_delete_Some in Hm as [Hne Hm].
    rewrite (stored_agree f _ h key value).
    + cbn. by destruct (h !! key).
    + apply list_elem_of_fmap. exists (key, value). split; [done|].
      apply list_elem_of_filter. split; [by cbn|]. by apply elem_of_map_to_list.
    + intros v Hv. apply list_elem_of_filter in Hv as [_ Hv].
      apply elem_of_map_to_list in Hv. congruence.
  - rewrite stored_absent.
    + cbn. by destruct (h !! key).
    + intros Hin. apply list_elem_of_fmap in Hin as [[k v] [-> Hin]].
      apply list_elem_of_filter in Hin as [Hne Hin].
      apply elem_of_map_to_list in Hin. cbn in *.
      rewrite lookup_delete_ne in Hm by done. congruence.
Qed.

Section WithShard.

Variable Shard : string.

(** What the second draft leaves when the game statement goes through:
    the state after the loop and the calls to the durable store. *)
Lemma UGAM2_record event db w :
  IsActive (clients w (Client event)) = true ->
  Redis.hash (redis (final (Theater.UGAM Shard event db w)))
    (Redis.object "gdata" (index (Message (Command event)) "GID")) =
  (stripQuotes <$> delete "TID" (Message (Command event))) ∪
  Redis.hash (redis w) (Redis.object "gdata" (index (Message (Command event)) "GID")).
Proof.
  intros Hon. rewrite <- stored_without_TID.
  change (Redis.hash (redis w)) with
    (Redis.hash (redis (Theater.world
       (Theater.mkLoop
          (Noteln ("Updating GameServer " +:+ index (Message (Command event)) "GID") w)
          [] 0)))).
  rewrite <- iteration_hash.
  unfold Theater.UGAM. rewrite Hon. cbn [negb].
  destruct (Theater.updateGame db); [|done].
  destruct (Theater.firstTry db) as [|err]; [done|].
  destruct (String.eqb err Theater.deadlock); [|done].
  by destruct (Theater.secondTry db).
Qed.

(** C9, as far as the two drafts agree. On an active session the first
    draft puts every field of the message into the record of the lobby as it
    came, and the second draft puts every field but [TID] into its record
    with the quotes stripped. On a message without [TID] whose values carry
    no quote to strip, both write the same fields with the same values: two
    records that were equal before are equal afterwards. *)
Theorem UGAM_drafts_agree_up_to_TID_and_quotes event db w1 w2 :
  IsActive (clients w1 (Client event)) = true ->
  IsActive (clients w2 (Client event)) = true ->
  Redis.hash (redis (UGAM event w1))
    ("gameServer-" +:+ index (Message (Command event)) "LID") =
  Message (Command event) ∪
  Redis.hash (redis w1) ("gameServer-" +:+ index (Message (Command event)) "LID") /\
  Redis.hash (redis (final (Theater.UGAM Shard event db w2)))
    (Redis.object "gdata" (index (Message (Command event)) "GID")) =
  (stripQuotes <$> delete "TID" (Message (Command event))) ∪
  Redis.hash (redis w2) (Redis.object "gdata" (index (Message (Command event)) "GID")) /\
  (Message (Command event) !! "TID" = None ->
   (forall key value,
       Message (Command event) !! key = Some value -> stripQuotes value = value) ->
   Redis.hash (redis w1) ("gameServer-" +:+ index (Message (Command event)) "LID") =
   Redis.hash (redis w2) (Redis.object "gdata" (index (Message (Command event)) "GID")) ->
   Redis.hash (redis (UGAM event w1))
     ("gameServer-" +:+ index (Message (Command event)) "LID") =
   Redis.hash (redis (final (Theater.UGAM Shard event db w2)))
     (Redis.object "gdata" (index (Message (Command event)) "GID"))).
Proof.
  intros Hon1 Hon2. rewrite UGAM_record, UGAM2_record by done.
  split; [done|]. split; [done|].
  intros Htid Hplain ->. f_equal. rewrite delete_id by done.
  apply map_eq. intros key. rewrite lookup_fmap.
  destruct (Message (Command event) !! key) as [value|] eqn:Hkey; [|done].
  cbn. by rewrite (Hplain key value Hkey).
Qed.


End WithShard.

Lemma UGAM_drafts_agree_up_to_TID_and_quotes_witness :
  Redis.hash (redis (UGAM Scenario.plainUpdate Scenario.threeClients))
    "gameServer-1" =
  Redis.hash
    (redis (final (Theater.UGAM "eu" Scenario.plainUpdate Scenario.deadlocks
                     Scenario.threeClients)))
    (Redis.object "gdata" "5459").
Proof.
  destruct (UGAM_drafts_agree_up_to_TID_and_quotes "eu" Scenario.plainUpdate
              Scenario.deadlocks Scenario.threeClients Scenario.threeClients
              eq_refl eq_refl) as (_ & _ & Hagree).
  apply Hagree; [reflexivity| |reflexivity].
  intros key value. change (Message (Command Scenario.plainUpdate)) with
    (assign [("LID", "1"); ("GID", "5459"); ("B-U-map", "village")]).
  unfold assign. cbn [foldl fst snd]. intros Hkey.
  repeat (apply lookup_insert_Some in Hkey as [[_ <-]|[_ Hkey]]; [reflexivity|]).
  by rewrite lookup_empty in Hkey.
Defined.

(** On a message with [TID] and a quoted value the drafts differ: the first
    stores [TID] and the quotes, the second neither. *)
Lemma UGAM_drafts_differ :
  let record1 :=
    Redis.hash (redis (UGAM Scenario.update Scenario.threeClients)) "gameServer-1" in
  let record2 :=
    Redis.hash
      (redis (final (Theater.UGAM "eu" Scenario.update Scenario.deadlocks
                       Scenario.threeClients)))
      (Redis.object "gdata" "5459") in
  Redis.hash (redis Scenario.threeClients) "gameServer-1" = ∅ /\
  Redis.hash (redis Scenario.threeClients) (Redis.object "gdata" "5459") = ∅ /\
  record1 !! "TID" = Some "5" /\
  record2 !! "TID" = None /\
  record1 !! "B-U-map" = Some (String dquote ("village" +:+ String dquote "")) /\
  record2 !! "B-U-map" = Some "village" /\
  record1 <> record2.
Proof.
  cbv zeta. repeat (split; [vm_compute; reflexivity|]).
  intros Heq. apply (f_equal (fun m => m !! "TID")) in Heq.
  vm_compute in Heq. discriminate.
Qed.


End UpdateLobby.

(** ** Sessions and the handshake *)

Section Sessions.

(** The loops over a message touch the store (and the log) only. *)
Lemma storeFields_frame ns fields w :
  globals (storeFields ns fields w) = globals w /\
  clients (storeFields ns fields w) = clients w /\
  sent (storeFields ns fields w) = sent w /\
  dbCalls (storeFields ns fields w) = dbCalls w.
Proof.
  revert w. induction fields as [|kv fields IH]; intros w; [done|].
  cbn [storeFields foldl]. unfold storeFields in IH.
  by destruct (IH (redisSet ns kv.1 kv.2 (Noteln ("SET " +:+ kv.1 +:+ " " +:+ kv.2) w)))
    as (-> & -> & -> & ->).
Qed.

Lemma storeStripped_frame ns fields w :
  globals (storeStripped ns fields w) = globals w /\
  clients (storeStripped ns fields w) = clients w /\
  sent (storeStripped ns fields w) = sent w /\
  dbCalls (storeStripped ns fields w) = dbCalls w.
Proof.
  revert w. induction fields as [|kv fields IH]; intros w; [done|].
  cbn [storeStripped foldl]. unfold storeStripped in IH.
  by destruct (IH (redisSet ns kv.1 (stripQuotes kv.2) w)) as (-> & -> & -> & ->).
Qed.

Ltac frame_loops :=
  repeat match goal with
  | |- context [storeFields ?ns ?l ?w] =>
      let H := fresh in
      pose proof (storeFields_frame ns l w) as H;
      destruct H as (? & ? & ? & ?);
      generalize dependent (storeFields ns l w); intros
  | |- context [storeStripped ?ns ?l ?w] =>
      let H := fresh in
      pose proof (storeStripped_frame ns l w) as H;
      destruct H as (? & ? & ? & ?);
      generalize dependent (storeStripped ns l w); intros
  end.

Ltac unfold_handlers :=
  unfold step, runTcp, runUdp, newClient, CONN, USER, LLST, GDAT, EGAM, ECNL,
    CGAM, registerLobby, UBRA, UGAM, markServer, EGRS, GLST, PENT, UPLA,
    LogCommand, ECHO, heartTick, joinTick, pollClient, pollServer in *.

Ltac split_cases :=
  repeat match goal with
  | |- context [if ?b then _ else _] => destruct b eqn:?
  | |- context [match ?x with _ => _ end] => destruct x eqn:?
  end.


Lemma exec_app es1 es2 w : exec (es1 ++ es2) w = exec es2 (exec es1 w).
Proof. unfold exec. apply foldl_app. Qed.


Lemma step_keeps_no_request e w :
  isEGAM e = false ->
  wantsToJoin (globals w) = false ->
  wantsToJoin (globals (step e w)) = false.
Proof.
  intros Hne Hw. destruct e as [name event env| | | |]; cbn in Hne.
  - unfold_handlers. rewrite Hne.
    split_cases; frame_loops; cbn in *; congruence.
  - unfold_handlers. split_cases; done.
  - unfold_handlers. split_cases; done.
  - unfold_handlers. rewrite Hw. split_cases; cbn in *; congruence.
  - done.
Qed.

(** Every packet of a step is one that [sends] allows. *)
Lemma step_sends e w :
  exists new, sent (step e w) = (sent w ++ new)%list /\ Forall (sends e w) new.
Proof.
  destruct e as [name event env|name command ip port|c|c|c].
  - unfold_handlers.
    split_cases; frame_loops; cbn in *;
      repeat match goal with H : sent _ = _ |- _ => rewrite H; clear H end;
      rewrite <- ?app_assoc;
      try (exists []; split; [by rewrite app_nil_r|constructor]);
      eexists; (split; [reflexivity|]);
      repeat match goal with
      | H : negb _ = false |- _ => apply negb_false_iff in H
      | H : String.eqb _ _ = true |- _ => apply String.eqb_eq in H; subst
      end;
      repeat match goal with |- Forall _ _ => constructor end;
      cbn; (split; [done|split; [done|]]);
      first [left; set_solver | right; split; [done|set_solver]].
  - unfold_handlers. split_cases; cbn;
      try (exists []; split; [by rewrite app_nil_r|constructor]);
      eexists; (split; [reflexivity|]); by repeat constructor.
  - unfold_handlers. split_cases; cbn;
      try (exists []; split; [by rewrite app_nil_r|constructor]);
      eexists; (split; [reflexivity|]);
      repeat match goal with
      | H : negb _ = false |- _ => apply negb_false_iff in H
      end; by repeat constructor.
  - unfold_handlers. split_cases; cbn; rewrite <- ?app_assoc;
      try (exists []; split; [by rewrite app_nil_r|constructor]);
      eexists; (split; [reflexivity|]);
      repeat match goal with
      | H : negb _ = false |- _ => apply negb_false_iff in H
      end;
      repeat match goal with |- Forall _ _ => constructor end;
      cbn; (split; [done|split; [done|]]);
      first [by left | by right].
  - exists []. split; [by rewrite app_nil_r|constructor].
Qed.

Lemma sentTo_app c ty w w' new :
  sent w' = (sent w ++ new)%list ->
  sentTo c ty w' =
  (sentTo c ty w ++ map packet (filter (fun s => isTo c ty s = true) new))%list.
Proof. intros Hs. unfold sentTo. by rewrite Hs, list.filter_app, map_app. Qed.

(** A step that can write nothing of type [ty] to [c] leaves the packets of
    that type to [c] as they were. *)
Lemma sentTo_silent c ty e w :
  (forall s, sends e w s -> isTo c ty s = false) ->
  sentTo c ty (step e w) = sentTo c ty w.
Proof.
  intros Hnone. destruct (step_sends e w) as (new & Hs & Hall).
  rewrite (sentTo_app c ty w _ new Hs).
  replace (filter (fun s => isTo c ty s = true) new) with (@nil Sent);
    [by rewrite app_nil_r|].
  symmetry. clear Hs. induction Hall as [|s new Hs' _ IH]; [done|].
  rewrite list.filter_cons, decide_False; [done|].
  rewrite (Hnone s Hs'). discriminate.
Qed.

Ltac read_clients :=
  repeat first
    [ rewrite fn_lookup_insert
    | match goal with
      | |- context [<[?a := ?v]> ?f ?b] =>
          destruct (decide (a = b)) as [<-|?];
          [rewrite fn_lookup_insert | rewrite fn_lookup_insert_ne by done]
      end ].

(** Only the transport clears [IsActive], and nothing sets it. *)
Lemma step_IsActive c e w :
  IsActive (clients (step e w) c) =
  if isClosed c e then false else IsActive (clients w c).
Proof.
  destruct e as [name event env|name command ip port|c'|c'|c']; cbn [isClosed].
  - unfold_handlers. split_cases; frame_loops; cbn in *;
      repeat match goal with H : clients _ = _ |- _ => rewrite H; clear H end;
      by read_clients.
  - unfold_handlers. by split_cases.
  - unfold_handlers. split_cases; cbn; by read_clients.
  - unfold_handlers. split_cases; cbn; by read_clients.
  - cbn. destruct (Nat.eqb_spec c c') as [->|Hne].
    + by rewrite fn_lookup_insert.
    + by rewrite fn_lookup_insert_ne.
Qed.

(** The heartbeat loop of a client keeps running while the client is
    active. *)
Lemma step_heartLoop c e w :
  IsActive (clients w c) = true -> heartLoop (clients w c) = true ->
  heartLoop (clients (step e w) c) = true.
Proof.
  intros Hon Hloop.
  destruct e as [name event env|name command ip port|c'|c'|c'].
  - unfold_handlers. split_cases; frame_loops; cbn in *;
      repeat match goal with H : clients _ = _ |- _ => rewrite H; clear H end;
      by read_clients.
  - unfold_handlers. by split_cases.
  - unfold_handlers. split_cases; cbn; try done. read_clients; [|done].
    rewrite Hon in *. discriminate.
  - unfold_handlers. split_cases; cbn; by read_clients.
  - cbn. by read_clients.
Qed.

Lemma isTo_type c ty s : msgType s <> ty -> isTo c ty s = false.
Proof.
  intros Hne. unfold isTo. destruct (peer s); [|done].
  destruct (String.eqb_spec (msgType s) ty); [done|]. apply andb_false_r.
Qed.

Lemma isTo_peer c c' ty s : peer s = TcpClient c' -> c' <> c -> isTo c ty s = false.
Proof.
  intros Hp Hne. unfold isTo. rewrite Hp.
  by destruct (Nat.eqb_spec c c') as [->|].
Qed.

(** The type of a packet written by a handler of a named event is one of
    the fixed names. *)
Lemma named_type name event env w s :
  named (Tcp name event env) -> sends (Tcp name event env) w s ->
  msgType s ∈ ["ECNL"; "EGAM"; "CGAM"; "GDAT"; "LDAT"; "EGRS"; "PENT"; "UPLA";
               "CONN"; "USER"; "LLST"; "UBRA"].
Proof.
  intros Hnamed (_ & _ & [Hty|[Hty Hname]]);
    [rewrite !elem_of_cons in *; tauto|].
  rewrite Hty. cbn in Hnamed. rewrite !elem_of_cons, elem_of_nil in Hname.
  destruct Hname as [->|[->|[->|[->|[]]]]];
    (destruct Hnamed as [Hn|[Hn|Hn]]; [discriminate|discriminate|]);
    cbn in Hn; injection Hn as Hn;
    match type of Hn with ?l = _ => change (l = Query (Command event)) in Hn end;
    rewrite <- Hn; rewrite !elem_of_cons; tauto.
Qed.

(** Without a pending request no step writes a "request join" packet. *)
Lemma step_no_EGRQ c e w :
  named e -> wantsToJoin (globals w) = false ->
  sentTo c "EGRQ" (step e w) = sentTo c "EGRQ" w.
Proof.
  intros Hnamed Hw. apply sentTo_silent. intros s Hs.
  destruct e as [name event env|name command ip port|c'|c'|c'].
  - apply isTo_type. pose proof (named_type _ _ _ _ _ Hnamed Hs) as Hty.
    intros Heq. rewrite Heq in Hty. set_unfold in Hty.
    repeat (destruct Hty as [Hty|Hty]; [discriminate|]). done.
  - cbn in Hs. unfold isTo. by rewrite Hs.
  - destruct Hs as (_ & _ & ->). by apply isTo_type.
  - destruct Hs as (_ & _ & [Hty|[_ Hty]]); [|congruence].
    apply isTo_type. by rewrite Hty.
  - done.
Qed.

(** Only the heartbeat tick of [c] writes a ping to [c]. *)
Lemma step_no_PING c e w :
  named e -> isHeartTick c e = false ->
  sentTo c "PING" (step e w) = sentTo c "PING" w.
Proof.
  intros Hnamed Hne. apply sentTo_silent. intros s Hs.
  destruct e as [name event env|name command ip port|c'|c'|c'].
  - apply isTo_type. pose proof (named_type _ _ _ _ _ Hnamed Hs) as Hty.
    intros Heq. rewrite Heq in Hty. set_unfold in Hty.
    repeat (destruct Hty as [Hty|Hty]; [discriminate|]). done.
  - cbn in Hs. unfold isTo. by rewrite Hs.
  - destruct Hs as (_ & _ & ->). cbn in Hne.
    apply (isTo_peer c c'); [done|]. intros ->. by rewrite Nat.eqb_refl in Hne.
  - destruct Hs as (_ & _ & [Hty|[Hty _]]); apply isTo_type; by rewrite Hty.
  - done.
Qed.

(** Nothing is written to a client that is not active. *)
Lemma step_inactive_silent c ty e w :
  IsActive (clients w c) = false ->
  sentTo c ty (step e w) = sentTo c ty w.
Proof.
  intros Hoff. apply sentTo_silent. intros s Hs.
  destruct e as [name event env|name command ip port|c'|c'|c'].
  - destruct Hs as (Hon & Hp & _). apply (isTo_peer c (Client event)); [done|].
    intros Heq. congruence.
  - cbn in Hs. unfold isTo. by rewrite Hs.
  - destruct Hs as (Hon & _ & ->). apply (isTo_peer c c'); [done|]. congruence.
  - destruct Hs as (Hon & Hp & _). apply (isTo_peer c c'); [done|]. congruence.
  - done.
Qed.

(** *** Commands on a closed session *)

(** C5. A command that arrives on a session whose [IsActive] is false is
    dropped by every handler of the dispatcher (whatever the name of the
    event), by the second draft of [UGAM] and by [GetStats]: nothing is
    written to any peer and the handshake variables, the store, the clients
    and the calls to the durable store are as before; the handlers return
    (none panics), and only the log can have a new line. *)
Theorem inactive_session_is_ignored name event env Shard answers rows w :
  IsActive (clients w (Client event)) = false ->
  onlyLogged w (runTcp name event env w) /\
  (exists w', Theater.UGAM Shard event answers w = Returned w' /\ onlyLogged w w') /\
  (exists w', Fesl.GetStats event rows w = Returned w' /\ onlyLogged w w').
Proof.
  intros Hoff. split; [|split].
  - unfold runTcp, newClient, CONN, USER, LLST, GDAT, EGAM, ECNL, CGAM, UBRA,
      UGAM, EGRS, GLST, PENT, UPLA, LogCommand.
    rewrite Hoff. cbn [negb].
    repeat match goal with
    | |- context [String.eqb ?a ?b] => destruct (String.eqb a b)
    end; by repeat split.
  - unfold Theater.UGAM. rewrite Hoff. eexists. split; [done|]. by repeat split.
  - unfold Fesl.GetStats. rewrite Hoff. eexists. split; [done|]. by repeat split.
Qed.

Lemma inactive_session_is_ignored_witness :
  onlyLogged New (runTcp "client.command.EGAM" Scenario.join Scenario.noRow New) /\
  (exists w', Theater.UGAM "eu" Scenario.join Scenario.deadlocks New = Returned w' /\
              onlyLogged New w') /\
  (exists w', Fesl.GetStats Scenario.join (Fesl.QueryRows []) New = Returned w' /\
              onlyLogged New w').
Proof.
  apply (inactive_session_is_ignored "client.command.EGAM" Scenario.join
           Scenario.noRow "eu" Scenario.deadlocks (Fesl.QueryRows []) New).
  reflexivity.
Defined.

(** *** The join request *)

Lemma EGAM_sent event db w :
  IsActive (clients w (Client event)) = true ->
  sent (EGAM event db w) =
  match db with
  | PrepareErr _ => sent w
  | _ =>
      (sent w ++
       [mkSent (TcpClient (Client event)) "EGAM"
          (assign [("TID", index (Message (Command event)) "TID");
                   ("GID", "5459"); ("LID", "1")]) 0])%list
  end.
Proof. intros Hon. unfold EGAM. rewrite Hon. by destruct db. Qed.

(** C4, when the statement can be prepared. A join request on an active
    session whose identity statement is prepared is answered with the
    acknowledgement that repeats the [TID] of the request, whether the row
    of the account is found or the scan fails. *)
Theorem EGAM_acknowledges_when_prepared event db w :
  IsActive (clients w (Client event)) = true ->
  (forall err, db <> PrepareErr err) ->
  sent (EGAM event db w) =
  (sent w ++
   [mkSent (TcpClient (Client event)) "EGAM"
      (assign [("TID", index (Message (Command event)) "TID");
               ("GID", "5459"); ("LID", "1")]) 0])%list /\
  assign [("TID", index (Message (Command event)) "TID");
          ("GID", "5459"); ("LID", "1")] !! "TID" =
  Some (index (Message (Command event)) "TID").
Proof.
  intros Hon Hprep. rewrite EGAM_sent by done. split.
  - destruct db as [err| |]; [by destruct (Hprep err)|done|done].
  - unfold assign. cbn [foldl fst snd]. by simplify_map_eq.
Qed.

Lemma EGAM_acknowledges_when_prepared_witness :
  sent (EGAM Scenario.join (ScanErr "sql: no rows in result set")
          Scenario.lobbyOpen) =
  (sent Scenario.lobbyOpen ++
   [mkSent (TcpClient 3) "EGAM"
      (assign [("TID", "7"); ("GID", "5459"); ("LID", "1")]) 0])%list.
Proof.
  apply (EGAM_acknowledges_when_prepared Scenario.join
           (ScanErr "sql: no rows in result set") Scenario.lobbyOpen);
    [reflexivity|discriminate].
Defined.

(** When [db.Prepare] fails the handler returns before it answers: the
    client of an active session gets no acknowledgement. *)
Lemma EGAM_unprepared_sends_nothing :
  IsActive (clients Scenario.lobbyOpen (Client Scenario.join)) = true /\
  sent (EGAM Scenario.join (PrepareErr "sql: database is closed")
          Scenario.lobbyOpen) = sent Scenario.lobbyOpen /\
  sentTo 3 "EGAM"
    (EGAM Scenario.join (PrepareErr "sql: database is closed")
       Scenario.lobbyOpen) = [].
Proof. split; [|split]; vm_compute; reflexivity. Qed.











(** *** The heartbeat *)

Lemma heartTick_ping c w :
  IsActive (clients w c) = true -> heartLoop (clients w c) = true ->
  sent (heartTick c w) =
  (sent w ++ [mkSent (TcpClient c) "PING" pingPacket 0])%list.
Proof. intros Hon Hloop. unfold heartTick. by rewrite Hon, Hloop. Qed.

(** While the session is not closed every heartbeat tick writes one ping,
    and nothing else writes one. *)
Lemma exec_pings c es : forall w,
  IsActive (clients w c) = true -> heartLoop (clients w c) = true ->
  Forall named es ->
  forallb (fun e => negb (isClosed c e)) es = true ->
  sentTo c "PING" (exec es w) =
  (sentTo c "PING" w ++ replicate (heartTicks c es) pingPacket)%list.
Proof.
  induction es as [|e es IH]; intros w Hon Hloop Hnamed Hopen.
  - cbn. by rewrite app_nil_r.
  - inversion Hnamed as [|? ? He Hrest]; subst.
    cbn in Hopen. apply andb_prop in Hopen as [Hne Hopen].
    apply negb_true_iff in Hne.
    cbn [exec foldl]. fold (exec es (step e w)).
    rewrite IH; [| |by apply step_heartLoop|done|done].
    2:{ by rewrite step_IsActive, Hne. }
    unfold heartTicks. rewrite list.filter_cons.
    destruct (isHeartTick c e) eqn:Htick.
    + rewrite decide_True by done. destruct e; try discriminate.
      cbn in Htick. apply Nat.eqb_eq in Htick as <-. cbn [step].
      rewrite (sentTo_app c "PING" w _ _ (heartTick_ping c w Hon Hloop)).
      cbn. rewrite Nat.eqb_refl. cbn. by rewrite <- app_assoc.
    + rewrite decide_False by (by intros ?). by rewrite step_no_PING.
Qed.

(** Once [IsActive] is false it stays false and nothing more is written to
    the client. *)
Lemma exec_inactive c ty es : forall w,
  IsActive (clients w c) = false ->
  sentTo c ty (exec es w) = sentTo c ty w /\
  IsActive (clients (exec es w) c) = false.
Proof.
  induction es as [|e es IH]; intros w Hoff; [done|].
  cbn [exec foldl]. fold (exec es (step e w)).
  assert (Hoff' : IsActive (clients (step e w) c) = false).
  { rewrite step_IsActive, Hoff. by destruct (isClosed c e). }
  destruct (IH (step e w) Hoff') as [-> ->].
  split; [|done]. by apply step_inactive_silent.
Qed.

Lemma newClient_starts c w :
  IsActive (clients w c) = true ->
  IsActive (clients (newClient c w) c) = true /\
  heartLoop (clients (newClient c w) c) = true /\
  HeartTicker (clients (newClient c w) c) = Some heartbeatSeconds /\
  sent (newClient c w) = sent w.
Proof.
  intros Hon. unfold newClient. rewrite Hon. cbn.
  repeat (rewrite fn_lookup_insert; cbn). done.
Qed.

(** C8. [newClient] on an active session starts a heartbeat ticker of 10
    seconds. From then on, as long as the session is not closed, each tick of
    that ticker writes one ["PING"] packet with [TID] ["0"] to the session
    and nothing else writes one: after any run the session has got one ping
    per tick. Once [IsActive] is false no further packet of any type, so no
    ping, is written to the session, whatever happens. *)
Theorem heartbeat_pings_until_closed c w :
  IsActive (clients w c) = true ->
  heartbeatSeconds = 10 /\
  HeartTicker (clients (newClient c w) c) = Some heartbeatSeconds /\
  pingPacket !! "TID" = Some "0" /\
  (forall es,
      Forall named es ->
      forallb (fun e => negb (isClosed c e)) es = true ->
      sentTo c "PING" (exec es (newClient c w)) =
      (sentTo c "PING" w ++ replicate (heartTicks c es) pingPacket)%list) /\
  (forall es after,
      IsActive (clients (exec es (newClient c w)) c) = false ->
      sentTo c "PING" (exec after (exec es (newClient c w))) =
      sentTo c "PING" (exec es (newClient c w))).
Proof.
  intros Hon. destruct (newClient_starts c w Hon) as (Hon' & Hloop & Hticker & Hsent).
  split; [done|]. split; [done|]. split; [done|]. split.
  - intros es Hnamed Hopen. rewrite exec_pings by done.
    f_equal. unfold sentTo. by rewrite Hsent.
  - intros es after Hoff. by apply exec_inactive.
Qed.

Lemma heartbeat_pings_until_closed_witness :
  sentTo 3 "PING"
    (exec [HeartTick 3; JoinTick 3; HeartTick 3] (newClient 3 Scenario.threeClients)) =
  [pingPacket; pingPacket].
Proof.
  destruct (heartbeat_pings_until_closed 3%nat Scenario.threeClients eq_refl)
    as (_ & _ & _ & Hpings & _).
  apply (Hpings [HeartTick 3; JoinTick 3; HeartTick 3]); [|reflexivity].
  repeat constructor.
Defined.

End Sessions.

(** * Further properties of the handlers *)

(** ** Quotes *)

Section Quotes.

Lemma stripLast_quoted s : stripLast (s +:+ String dquote "") = s.
Proof.
  induction s as [|c s IH]; [done|].
  destruct s as [|c' s']; [done|].
  change (String c (stripLast (String c' s' +:+ String dquote "")) =
          String c (String c' s')).
  by rewrite IH.
Qed.

Lemma stripLast_length s :
  (String.length s - 1 <= String.length (stripLast s) <= String.length s)%nat.
Proof.
  induction s as [|c s IH]; [cbn; lia|].
  destruct s as [|c' s'].
  - cbn. destruct (Ascii.eqb c dquote); cbn; lia.
  - change (stripLast (String c (String c' s'))) with
      (String c (stripLast (String c' s'))).
    cbn [String.length] in *. lia.
Qed.

(** X1. The "Strip quotes" block undoes one layer of quoting, whatever is
    between the quotes, and never removes more than the two bytes. *)
Theorem stripQuotes_unquotes s :
  stripQuotes (String dquote (s +:+ String dquote "")) = s /\
  (String.length s - 2 <= String.length (stripQuotes s) <= String.length s)%nat.
Proof.
  split.
  - unfold stripQuotes, stripFirst. rewrite Ascii.eqb_refl. apply stripLast_quoted.
  - unfold stripQuotes, stripFirst. destruct s as [|c s]; [cbn; lia|].
    destruct (Ascii.eqb c dquote).
    + pose proof (stripLast_length s). cbn [String.length]. lia.
    + pose proof (stripLast_length (String c s)). lia.
Qed.

End Quotes.

(** ** The registry *)

Section Registry.

(** X2. The record [CGAM] leaves under the id it assigns: the four derived
    fields over the fields of the message without their quotes, over whatever
    the record held before. *)
Theorem CGAM_record_contents event ip w :
  IsActive (clients w (Client event)) = true ->
  IpAddr (clients w (Client event)) = Some ip ->
  lobby (CGAM event w) (nextLobbyID w) =
  <["QUEUE-LENGTH" := "0"]> (<["ACTIVE-PLAYERS" := "0"]> (<["IP" := ip]>
    (<["LID" := Itoa (nextLobbyID w)]>
       ((stripQuotes <$> Message (Command event)) ∪ lobby w (nextLobbyID w))))) /\
  (forall key value,
      Message (Command event) !! key = Some value ->
      key ∉ ["LID"; "IP"; "ACTIVE-PLAYERS"; "QUEUE-LENGTH"] ->
      lobby (CGAM event w) (nextLobbyID w) !! key = Some (stripQuotes value)).
Proof.
  intros Hon Hip. destruct (CGAM_registers event ip w Hon Hip) as [-> _].
  rewrite registerLobby_record, stored_map. split; [done|].
  intros key value Hkey Hnot. rewrite !not_elem_of_cons in Hnot.
  destruct Hnot as (? & ? & ? & ? & _).
  rewrite !lookup_insert_ne by done.
  by rewrite lookup_union, lookup_fmap, Hkey; destruct (lobby _ _ !! key).
Qed.

Lemma CGAM_record_contents_witness :
  lobby (CGAM Scenario.create1 Scenario.twoServers)
    (nextLobbyID Scenario.twoServers) !! "NAME" = Some "first".
Proof.
  destruct (CGAM_record_contents Scenario.create1 "10.0.0.1" Scenario.twoServers
              eq_refl eq_refl) as [_ Hfield].
  apply (Hfield "NAME" "first"); [reflexivity|].
  rewrite !not_elem_of_cons. repeat split; try discriminate. apply not_elem_of_nil.
Defined.

Lemma CGAM_sent event ip w :
  IsActive (clients w (Client event)) = true ->
  IpAddr (clients w (Client event)) = Some ip ->
  sent (CGAM event w) =
  (sent w ++
   [mkSent (TcpClient (Client event)) "CGAM"
      (assign
         [("TID", index (Message (Command event)) "TID");
          ("MAX-PLAYERS", "16");
          ("EKEY", "O65zZ2D2A58mNrZw1hmuJw%3d%3d");
          ("UGID", "7eb6155c-ac70-4567-9fc4-732d56a9334a");
          ("JOIN", index (Message (Command event)) "JOIN");
          ("LID", "1");
          ("SECRET", "2587913");
          ("J", "0");
          ("GID", "5459")]) 0])%list.
Proof.
  intros Hon Hip. destruct (CGAM_registers event ip w Hon Hip) as [-> _].
  unfold registerLobby. cbn -[assign storeStripped Itoa].
  by destruct (storeStripped_frame
                 ("gameServer-" +:+ Itoa (nextLobbyID w))
                 (map_to_list (Message (Command event))) w) as (_ & _ & -> & _).
Qed.

(** X3. The one answer of [CGAM] names the lobby ["1"], whatever id the call
    has assigned and stored under [LID] in the record. *)
Theorem CGAM_answer_names_lobby_1 event ip w :
  IsActive (clients w (Client event)) = true ->
  IpAddr (clients w (Client event)) = Some ip ->
  exists answer,
    sent (CGAM event w) =
      (sent w ++ [mkSent (TcpClient (Client event)) "CGAM" answer 0])%list /\
    answer !! "LID" = Some "1" /\
    answer !! "TID" = Some (index (Message (Command event)) "TID") /\
    answer !! "JOIN" = Some (index (Message (Command event)) "JOIN") /\
    lobby (CGAM event w) (nextLobbyID w) !! "LID" = Some (Itoa (nextLobbyID w)).
Proof.
  intros Hon Hip. eexists. split; [by apply (CGAM_sent event ip)|].
  unfold assign. cbn [foldl fst snd].
  repeat (split; [by simplify_map_eq|]).
  destruct (CGAM_registers event ip w Hon Hip) as [-> _].
  rewrite registerLobby_record. by simplify_map_eq.
Qed.

Lemma CGAM_answer_names_lobby_1_witness :
  exists answer,
    sent (CGAM Scenario.create2 (CGAM Scenario.create1 Scenario.twoServers)) =
      (sent (CGAM Scenario.create1 Scenario.twoServers) ++
       [mkSent (TcpClient 2) "CGAM" answer 0])%list /\
    answer !! "LID" = Some "1" /\
    lobby (CGAM Scenario.create2 (CGAM Scenario.create1 Scenario.twoServers)) 2
      !! "LID" = Some "2".
Proof.
  destruct (CGAM_answer_names_lobby_1 Scenario.create2 "10.0.0.2"
              (CGAM Scenario.create1 Scenario.twoServers) eq_refl eq_refl)
    as (answer & Hsent & Hlid & _ & _ & Hrecord).
  exists answer. split; [exact Hsent|]. split; [exact Hlid|]. exact Hrecord.
Defined.

(** X4. When the counter is missing from the store, [CGAM] reads it as 0: the
    call assigns the id 1 and writes over the record of lobby 1. *)
Theorem CGAM_restarts_without_counter event ip w :
  IsActive (clients w (Client event)) = true ->
  IpAddr (clients w (Client event)) = Some ip ->
  Redis.hash (redis w) gameServerGlobal !! "Lobbies" = None ->
  assigned event w = Some 1 /\
  Redis.Get (redis (CGAM event w)) gameServerGlobal "Lobbies" = "1" /\
  lobby (CGAM event w) 1 !! "IP" = Some ip.
Proof.
  intros Hon Hip Hmiss.
  assert (Hnext : nextLobbyID w = 1).
  { unfold nextLobbyID, Redis.Get, index. by rewrite Hmiss. }
  destruct (CGAM_registers event ip w Hon Hip) as [HC Hid].
  rewrite Hnext in *. split; [done|]. split.
  - rewrite HC. apply registerLobby_counter.
  - rewrite HC, registerLobby_record. by simplify_map_eq.
Qed.

Lemma CGAM_restarts_without_counter_witness :
  assigned Scenario.create1
    (setRedis ∅ (CGAM Scenario.create2 Scenario.twoServers)) = Some 1.
Proof.
  apply (CGAM_restarts_without_counter Scenario.create1 "10.0.0.1"
           (setRedis ∅ (CGAM Scenario.create2 Scenario.twoServers)));
    reflexivity.
Defined.

(** X5. [UGAM] writes to the namespace ["gameServer-" + LID]: with the [LID]
    ["config"] that is the namespace of the lobby counter, and a field
    [Lobbies] of the message replaces the counter that [CGAM] reads next. *)
Theorem UGAM_can_replace_counter event value w :
  IsActive (clients w (Client event)) = true ->
  Message (Command event) !! "LID" = Some "config" ->
  Message (Command event) !! "Lobbies" = Some value ->
  Redis.Get (redis (UGAM event w)) gameServerGlobal "Lobbies" = value /\
  nextLobbyID (UGAM event w) = wrap64 (Atoi value + 1).
Proof.
  intros Hon Hlid Hcount.
  assert (Hget : Redis.Get (redis (UGAM event w)) gameServerGlobal "Lobbies" = value).
  { pose proof (UGAM_record event w Hon) as Hrec.
    assert (Hl : index (Message (Command event)) "LID" = "config")
      by (unfold index; by rewrite Hlid).
    rewrite Hl in Hrec.
    unfold Redis.Get, index. change gameServerGlobal with ("gameServer-" +:+ "config").
    rewrite Hrec, lookup_union, Hcount.
    by destruct (Redis.hash _ _ !! "Lobbies"). }
  split; [done|]. unfold nextLobbyID. by rewrite Hget.
Qed.

Lemma UGAM_can_replace_counter_witness :
  nextLobbyID
    (UGAM Scenario.resetCounter
       (CGAM Scenario.create2 (CGAM Scenario.create1 Scenario.twoServers))) = 1.
Proof.
  apply (UGAM_can_replace_counter Scenario.resetCounter "0"
           (CGAM Scenario.create2 (CGAM Scenario.create1 Scenario.twoServers)));
    reflexivity.
Defined.

End Registry.

(** ** Roles, timers and the dispatcher *)

Section Roles.

Ltac unfold_handlers :=
  unfold step, runTcp, runUdp, newClient, CONN, USER, LLST, GDAT, EGAM, ECNL,
    CGAM, registerLobby, UBRA, UGAM, markServer, EGRS, GLST, PENT, UPLA,
    LogCommand, ECHO, heartTick, joinTick, pollClient, pollServer in *.

Ltac split_cases :=
  repeat match goal with
  | |- context [if ?b then _ else _] => destruct b eqn:?
  | |- context [match ?x with _ => _ end] => destruct x eqn:?
  end.

Ltac frame_loops :=
  repeat match goal with
  | |- context [storeFields ?ns ?l ?w] =>
      let H := fresh in
      pose proof (storeFields_frame ns l w) as H;
      destruct H as (? & ? & ? & ?);
      generalize dependent (storeFields ns l w); intros
  | |- context [storeStripped ?ns ?l ?w] =>
      let H := fresh in
      pose proof (storeStripped_frame ns l w) as H;
      destruct H as (? & ? & ? & ?);
      generalize dependent (storeStripped ns l w); intros
  end.

Ltac read_clients :=
  repeat first
    [ rewrite fn_lookup_insert
    | match goal with
      | |- context [<[?a := ?v]> ?f ?b] =>
          destruct (decide (a = b)) as [<-|?];
          [rewrite fn_lookup_insert | rewrite fn_lookup_insert_ne by done]
      end ].

Lemma step_IsServer c e w :
  IsServer (clients (step e w) c) = IsServer (clients w c) || marksServer c w e.
Proof.
  destruct e as [name event env|name command ip port|c'|c'|c']; cbn [marksServer].
  - destruct (String.eqb name "client.command.UGAM") eqn:Hname.
    + apply String.eqb_eq in Hname as ->. cbn [step runTcp String.eqb Ascii.eqb Bool.eqb].
      cbn. unfold UGAM, markServer.
      destruct (IsActive (clients w (Client event))) eqn:Hon; cbn [negb].
      * destruct (storeFields_frame ("gameServer-" +:+ index (Message (Command event)) "LID")
          (map_to_list (Message (Command event)))
          (Noteln ("Updating GameServer " +:+ index (Message (Command event)) "LID")
             (client (Client event) (set_IsServer true) (Noteln "yo dis a server " w))))
          as (_ & -> & _ & _).
        cbn. destruct (Nat.eqb_spec c (Client event)) as [->|Hne].
        -- rewrite fn_lookup_insert, Hon. cbn. by rewrite orb_true_r.
        -- rewrite fn_lookup_insert_ne by done. by rewrite orb_false_r.
      * cbn. destruct (Nat.eqb_spec c (Client event)) as [->|Hne].
        -- rewrite Hon. cbn. by rewrite orb_false_r.
        -- by rewrite orb_false_r.
    + cbn [andb]. rewrite orb_false_r. unfold_handlers. rewrite Hname.
      split_cases; frame_loops; cbn in *;
        repeat match goal with H : clients _ = _ |- _ => rewrite H; clear H end;
        by read_clients.
  - rewrite orb_false_r. unfold_handlers. by split_cases.
  - rewrite orb_false_r. unfold_handlers. split_cases; cbn; by read_clients.
  - rewrite orb_false_r. unfold_handlers. split_cases; cbn; by read_clients.
  - rewrite orb_false_r. cbn. by read_clients.
Qed.

(** X6. The role of a session. In one step [IsServer] of a client becomes
    true exactly when an update ([UGAM]) is dispatched on that client while
    it is active, and otherwise stays what it was; creating a lobby does not
    set it. Nothing clears it: a server stays a server through every run,
    also after its connection is closed. *)
Theorem role_changes_by_UGAM_only c w :
  (forall e, IsServer (clients (step e w) c) =
             IsServer (clients w c) || marksServer c w e) /\
  (forall es, IsServer (clients w c) = true ->
              IsServer (clients (exec es w) c) = true).
Proof.
  split; [intros e; apply step_IsServer|].
  intros es. revert w. induction es as [|e es IH]; intros w Hs; [done|].
  cbn [exec foldl]. fold (exec es (step e w)). apply IH.
  by rewrite step_IsServer, Hs.
Qed.

Lemma role_changes_by_UGAM_only_witness :
  IsServer (clients (exec [Closed 1; JoinTick 1] Scenario.lobbyOpen) 1) = true.
Proof.
  apply (proj2 (role_changes_by_UGAM_only 1%nat Scenario.lobbyOpen)
           [Closed 1; JoinTick 1]).
  reflexivity.
Defined.

Lemma step_tickers c e w :
  (is_Some (HeartTicker (clients w c)) -> is_Some (HeartTicker (clients (step e w) c))) /\
  (is_Some (JoinTicker (clients w c)) -> is_Some (JoinTicker (clients (step e w) c))).
Proof.
  destruct e as [name event env|name command ip port|c'|c'|c'].
  - unfold_handlers. split_cases; frame_loops; cbn in *;
      repeat match goal with H : clients _ = _ |- _ => rewrite H; clear H end;
      read_clients; cbn; split; eauto.
  - unfold_handlers. by split_cases.
  - unfold_handlers. split_cases; cbn; by read_clients.
  - unfold_handlers. split_cases; cbn; by read_clients.
  - cbn. by read_clients.
Qed.

(** X7. No event stops a ticker: the two tickers that [newClient] creates for
    a client are still there after every run, also when the connection has
    been closed and both loops have returned. *)
Theorem tickers_are_never_stopped c es : forall w,
  is_Some (HeartTicker (clients w c)) ->
  is_Some (JoinTicker (clients w c)) ->
  is_Some (HeartTicker (clients (exec es w) c)) /\
  is_Some (JoinTicker (clients (exec es w) c)).
Proof.
  induction es as [|e es IH]; intros w Hh Hj; [done|].
  cbn [exec foldl]. fold (exec es (step e w)).
  destruct (step_tickers c e w) as [Hh' Hj']. apply IH; auto.
Qed.

Lemma tickers_are_never_stopped_witness :
  is_Some (HeartTicker
             (clients (exec [Closed 3; HeartTick 3; JoinTick 3] Scenario.lobbyOpen) 3)) /\
  is_Some (JoinTicker
             (clients (exec [Closed 3; HeartTick 3; JoinTick 3] Scenario.lobbyOpen) 3)).
Proof.
  apply (tickers_are_never_stopped 3%nat [Closed 3; HeartTick 3; JoinTick 3]
           Scenario.lobbyOpen); vm_compute; eauto.
Defined.

(** X8. An event whose name the [switch] of [run] does not know is written to
    the log and nothing else happens, also on an active session. *)
Theorem unknown_event_is_only_logged name event env w :
  name ∉ handled ->
  onlyLogged w (runTcp name event env w).
Proof.
  unfold handled. rewrite !not_elem_of_cons. intros Hnot.
  repeat match type of Hnot with
  | _ <> ?x /\ _ =>
      let H := fresh in
      destruct Hnot as [H Hnot]; apply String.eqb_neq in H
  end.
  unfold runTcp.
  repeat match goal with H : String.eqb name _ = false |- _ => rewrite H; clear H end.
  unfold LogCommand. by destruct (String.eqb name "client.command"); repeat split.
Qed.

Lemma unknown_event_is_only_logged_witness :
  onlyLogged Scenario.lobbyOpen
    (runTcp "client.command.QLVT" Scenario.join Scenario.noRow Scenario.lobbyOpen).
Proof.
  apply (unknown_event_is_only_logged "client.command.QLVT" Scenario.join
           Scenario.noRow Scenario.lobbyOpen).
  unfold handled. rewrite !not_elem_of_cons.
  repeat split; try discriminate. apply not_elem_of_nil.
Defined.

(** ** The handshake variables *)

Lemma step_keeps_no_leave e w :
  wantsToLeaveQueue (globals w) = false ->
  wantsToLeaveQueue (globals (step e w)) = false.
Proof.
  intros Hw. destruct e as [name event env| | | |].
  - unfold_handlers. split_cases; frame_loops; cbn in *; congruence.
  - unfold_handlers. by split_cases.
  - unfold_handlers. by split_cases.
  - unfold_handlers. split_cases; cbn in *; congruence.
  - done.
Qed.

(** X9. Nothing sets [wantsToLeaveQueue]: from any state in which it is
    false, as it is when the process starts, it is false after every run,
    whatever commands arrive on the open sessions; so the leave-queue branch
    of the server poll is never taken. *)
Theorem leave_queue_is_never_requested es : forall w,
  wantsToLeaveQueue (globals w) = false ->
  wantsToLeaveQueue (globals (exec es w)) = false.
Proof.
  induction es as [|e es IH]; intros w Hw; [done|].
  cbn [exec foldl]. fold (exec es (step e w)). apply IH.
  by apply step_keeps_no_leave.
Qed.

Lemma leave_queue_is_never_requested_witness :
  wantsToLeaveQueue
    (globals
       (exec [Tcp "client.command.ECNL" Scenario.leave Scenario.noRow;
              Tcp "client.command.EGAM" Scenario.join
                (mkEnv (ScanOk "1001" "soldier") 0);
              JoinTick 1; JoinTick 3]
          Scenario.lobbyOpen)) = false.
Proof.
  apply (leave_queue_is_never_requested
           [Tcp "client.command.ECNL" Scenario.leave Scenario.noRow;
            Tcp "client.command.EGAM" Scenario.join
              (mkEnv (ScanOk "1001" "soldier") 0);
            JoinTick 1; JoinTick 3]
           Scenario.lobbyOpen).
  reflexivity.
Defined.

Lemma step_keeps_no_ticket e w :
  isEGAM e = false ->
  wantsToJoin (globals w) = false -> canJoin (globals w) = false ->
  canJoin (globals (step e w)) = false.
Proof.
  intros Hne Hw Hc. destruct e as [name event env| | | |]; cbn in Hne.
  - unfold_handlers. rewrite Hne.
    split_cases; frame_loops; cbn in *; congruence.
  - unfold_handlers. by split_cases.
  - unfold_handlers. by split_cases.
  - unfold_handlers. rewrite Hw, Hc. split_cases; cbn in *; congruence.
  - done.
Qed.

Lemma joinTick_idle c w :
  canJoin (globals w) = false -> wantsToJoin (globals w) = false ->
  sent (joinTick c w) = sent w.
Proof.
  intros Hc Hw. unfold joinTick, pollClient, pollServer. rewrite Hc, Hw.
  by split_cases.
Qed.

(** Without a ticket to hand out no step writes an "enter game" packet. *)
Lemma step_no_EGEG c e w :
  named e -> canJoin (globals w) = false -> wantsToJoin (globals w) = false ->
  sentTo c "EGEG" (step e w) = sentTo c "EGEG" w.
Proof.
  intros Hnamed Hc Hw.
  destruct e as [name event env|name command ip port|c'|c'|c'].
  - apply sentTo_silent. intros s Hs.
    apply isTo_type. pose proof (named_type _ _ _ _ _ Hnamed Hs) as Hty.
    intros Heq. rewrite Heq in Hty. rewrite !elem_of_cons, elem_of_nil in Hty.
    repeat (destruct Hty as [Hty|Hty]; [discriminate|]). done.
  - apply sentTo_silent. intros s Hs. cbn in Hs. unfold isTo. by rewrite Hs.
  - apply sentTo_silent. intros s Hs.
    destruct Hs as (_ & _ & ->). by apply isTo_type.
  - cbn [step]. unfold sentTo. by rewrite joinTick_idle.
  - done.
Qed.

(** X10. As long as no join request is dispatched, no handshake packet
    ("request join" or "enter game") is written to any session: from any
    state in which no request is pending and no ticket is out, as when the
    process starts, the packets of these two types that a session has got
    are the same after every run of other commands and timer ticks. *)
Theorem no_handshake_without_join_request es c : forall w,
  wantsToJoin (globals w) = false -> canJoin (globals w) = false ->
  Forall named es ->
  forallb (fun e => negb (isEGAM e)) es = true ->
  sentTo c "EGRQ" (exec es w) = sentTo c "EGRQ" w /\
  sentTo c "EGEG" (exec es w) = sentTo c "EGEG" w.
Proof.
  induction es as [|e es IH]; intros w Hw Hc Hnamed Hes; [done|].
  inversion Hnamed as [|? ? He Hrest]; subst.
  cbn in Hes. apply andb_prop in Hes as [Hne Hes]. apply negb_true_iff in Hne.
  cbn [exec foldl]. fold (exec es (step e w)).
  destruct (IH (step e w)) as [-> ->]; try done.
  - by apply step_keeps_no_request.
  - by apply step_keeps_no_ticket.
  - split; [by apply step_no_EGRQ|by apply step_no_EGEG].
Qed.

Lemma no_handshake_without_join_request_witness :
  sentTo 1 "EGRQ"
    (exec [Tcp "client.command.USER" Scenario.whoami Scenario.noRow;
           JoinTick 1; JoinTick 2; JoinTick 3] Scenario.bothServers) =
  sentTo 1 "EGRQ" Scenario.bothServers /\
  sentTo 1 "EGEG"
    (exec [Tcp "client.command.USER" Scenario.whoami Scenario.noRow;
           JoinTick 1; JoinTick 2; JoinTick 3] Scenario.bothServers) =
  sentTo 1 "EGEG" Scenario.bothServers.
Proof.
  apply (no_handshake_without_join_request
           [Tcp "client.command.USER" Scenario.whoami Scenario.noRow;
            JoinTick 1; JoinTick 2; JoinTick 3] 1%nat Scenario.bothServers);
    [reflexivity|reflexivity| |reflexivity].
  constructor; [|repeat constructor].
  right. right. reflexivity.
Defined.

(** X11. When the scan of the identity row fails, [EGAM] still replaces the
    account id and raises the request, and leaves [pid] and [nickname] as the
    last successful request set them: the "request join" that follows names
    the new account with the old player. *)
Theorem EGAM_scan_failure_keeps_old_player event err w :
  IsActive (clients w (Client event)) = true ->
  userId (globals (EGAM event (ScanErr err) w)) =
    index (Message (Command event)) "R-U-accid" /\
  nickname (globals (EGAM event (ScanErr err) w)) = nickname (globals w) /\
  pid (globals (EGAM event (ScanErr err) w)) = pid (globals w) /\
  wantsToJoin (globals (EGAM event (ScanErr err) w)) = true /\
  egrqPacket (globals (EGAM event (ScanErr err) w)) !! "UID" =
    Some (index (Message (Command event)) "R-U-accid") /\
  egrqPacket (globals (EGAM event (ScanErr err) w)) !! "NAME" =
    Some (nickname (globals w)) /\
  egrqPacket (globals (EGAM event (ScanErr err) w)) !! "PID" =
    Some (pid (globals w)).
Proof.
  intros Hon. unfold EGAM. rewrite Hon. cbn [negb]. cbn -[index].
  repeat (split; [done|]).
  unfold egrqPacket, assign. cbn [foldl fst snd].
  repeat split; by simplify_map_eq.
Qed.

Lemma EGAM_scan_failure_keeps_old_player_witness :
  egrqPacket
    (globals (EGAM Scenario.join (ScanErr "sql: no rows in result set")
                (EGAM Scenario.whoami (ScanOk "1001" "soldier") Scenario.lobbyOpen)))
    !! "NAME" = Some "soldier".
Proof.
  destruct (EGAM_scan_failure_keeps_old_player Scenario.join
              "sql: no rows in result set"
              (EGAM Scenario.whoami (ScanOk "1001" "soldier") Scenario.lobbyOpen)
              eq_refl) as (_ & _ & _ & _ & _ & Hname & _).
  exact Hname.
Defined.







(** ** The answers *)

(** X13. Every packet a command handler writes repeats the [TID] of the command
    it answers, but for the lobby data that [LLST] adds, which always
    carries the [TID] ["6"]. *)
Theorem answers_repeat_TID name event env w :
  exists new,
    sent (runTcp name event env w) = (sent w ++ new)%list /\
    Forall (fun s =>
              peer s = TcpClient (Client event) /\
              (packet s !! "TID" = Some (index (Message (Command event)) "TID") \/
               msgType s = "LDAT" /\ packet s !! "TID" = Some "6")) new.
Proof.
  unfold_handlers.
  split_cases; frame_loops; cbn -[assign gdatPacket] in *;
    repeat match goal with H : sent _ = _ |- _ => rewrite H; clear H end;
    rewrite <- ?app_assoc;
    try (exists []; split; [by rewrite app_nil_r|constructor]);
    eexists; (split; [reflexivity|]);
    repeat match goal with |- Forall _ _ => constructor end;
    cbn [peer packet msgType]; (split; [done|]);
    first [ left; unfold gdatPacket, assign; cbn [foldl fst snd]; by simplify_map_eq
          | right; split; [done|];
            unfold assign; cbn [foldl fst snd]; by simplify_map_eq ].
Qed.

End Roles.

(** ** The second draft of [UGAM] and the durable store *)

Section Durable.

Variable Shard : string.


(** X14. What the second draft asks of the durable store. The game statement is
    always run first, with the game id and the shard; when it fails, the
    handler panics: the fields are already in the store and the statistics
    statement is never run. When the statistics statement fails with another
    error than the deadlock, it is not run again. *)
Theorem UGAM_second_draft_failures event db w :
  IsActive (clients w (Client event)) = true ->
  (forall err, Theater.updateGame db = ExecErr err ->
     exists w',
       Theater.UGAM Shard event db w = Panicked w' /\
       dbCalls w' =
         (dbCalls w ++
          [mkDbCall UpdateGame [index (Message (Command event)) "GID"; Shard]])%list /\
       sent w' = sent w /\
       Redis.hash (redis w')
         (Redis.object "gdata" (index (Message (Command event)) "GID")) =
       (stripQuotes <$> delete "TID" (Message (Command event))) ∪
       Redis.hash (redis w)
         (Redis.object "gdata" (index (Message (Command event)) "GID"))) /\
  (forall err, Theater.updateGame db = ExecOk ->
     Theater.firstTry db = ExecErr err -> err <> Theater.deadlock ->
     exists w' keys args,
       Theater.UGAM Shard event db w = Returned w' /\
       dbCalls w' =
         (dbCalls w ++
          [mkDbCall UpdateGame [index (Message (Command event)) "GID"; Shard];
           mkDbCall (SetServerStats keys) args])%list).
Proof.
  intros Hon.
  pose proof (UGAM2_record Shard event db w Hon) as Hrec.
  destruct (iteration_frame (index (Message (Command event)) "GID")
              (map_to_list (Message (Command event)))
              (Theater.mkLoop
                 (Noteln ("Updating GameServer " +:+ index (Message (Command event)) "GID") w)
                 [] 0)) as (_ & _ & Hsent & _ & Hdb).
  cbn in Hsent, Hdb.
  split.
  - intros err Hup. revert Hrec. unfold Theater.UGAM. rewrite Hon, Hup. cbn [negb].
    intros Hrec. eexists. split; [reflexivity|].
    cbn [dbCalls dbCall logged sent]. rewrite Hdb, Hsent. by repeat split.
  - intros err Hup Hfirst Hne. unfold Theater.UGAM. rewrite Hon, Hup, Hfirst.
    cbn [negb]. apply String.eqb_neq in Hne. rewrite Hne.
    eexists _, _, _. split; [reflexivity|].
    cbn [dbCalls dbCall Errorln logged]. rewrite Hdb, <- app_assoc. done.
Qed.


End Durable.

Lemma UGAM_second_draft_failures_witness :
  exists w',
    Theater.UGAM "eu" Scenario.update
      (Theater.mkAnswers (ExecErr "connection lost") ExecOk ExecOk)
      Scenario.threeClients = Panicked w' /\
    dbCalls w' = [mkDbCall UpdateGame ["5459"; "eu"]].
Proof.
  destruct (UGAM_second_draft_failures "eu" Scenario.update
              (Theater.mkAnswers (ExecErr "connection lost") ExecOk ExecOk)
              Scenario.threeClients eq_refl) as [Hpanic _].
  destruct (Hpanic "connection lost" eq_refl) as (w' & Hout & Hdb & _).
  exists w'. split; [exact Hout|exact Hdb].
Defined.


(** ** [GetStats] *)

Section Stats.

Lemma dotless_uint d : dotless (NilEmpty.string_of_uint d).
Proof. induction d; cbn; (split; [discriminate|done]) || done. Qed.

Lemma dotless_Itoa z : dotless (Itoa z).
Proof.
  unfold Itoa. destruct (Z.to_int z) as [d|d]; cbn.
  - destruct d; cbn; try (split; [discriminate|]); try done; apply dotless_uint.
  - split; [discriminate|].
    destruct d; cbn; try (split; [discriminate|]); try done; apply dotless_uint.
Qed.

(** Two texts that agree after a dotless head and a dot have the same head
    and the same tail. *)
Lemma dotless_split a : forall b s t,
  dotless a -> dotless b ->
  a +:+ String "." s = b +:+ String "." t -> a = b /\ s = t.
Proof.
  induction a as [|c a IH]; intros [|c' b] s t Ha Hb Heq; cbn in *.
  - by injection Heq as ->.
  - injection Heq as <- _. by destruct Hb.
  - injection Heq as -> _. by destruct Ha.
  - injection Heq as -> Heq. destruct Ha as [_ Ha], Hb as [_ Hb].
    destruct (IH b s t Ha Hb Heq) as [-> ->]. done.
Qed.

(** The name of a field of the answer: [stats.<n>.<field>]. *)
Lemma stat_name_inj n m f g :
  minInt <= n <= maxInt -> minInt <= m <= maxInt ->
  "stats." +:+ Itoa n +:+ String "." f = "stats." +:+ Itoa m +:+ String "." g ->
  n = m /\ f = g.
Proof.
  intros Hn Hm Heq. cbn in Heq. injection Heq as Heq.
  change (Itoa n +:+ String "." f = Itoa m +:+ String "." g) in Heq.
  destruct (dotless_split _ _ _ _ (dotless_Itoa n) (dotless_Itoa m) Heq) as [Hi ->].
  split; [|done]. by apply Itoa_inj.
Qed.

Lemma iteration_world rows : forall st,
  sent (Fesl.world (foldl Fesl.iteration st rows)) = sent (Fesl.world st) /\
  dbCalls (Fesl.world (foldl Fesl.iteration st rows)) = dbCalls (Fesl.world st) /\
  redis (Fesl.world (foldl Fesl.iteration st rows)) = redis (Fesl.world st) /\
  globals (Fesl.world (foldl Fesl.iteration st rows)) = globals (Fesl.world st) /\
  clients (Fesl.world (foldl Fesl.iteration st rows)) = clients (Fesl.world st).
Proof.
  induction rows as [|row rows IH]; intros st; [done|].
  cbn [foldl]. destruct (IH (Fesl.iteration st row)) as (-> & -> & -> & -> & ->).
  unfold Fesl.iteration. cbn. by destruct (Fesl.scanErr row).
Qed.

(** The loop over the rows: the count, the three fields of each row, and
    the fields it leaves alone. *)
Lemma iteration_rows rows : forall st,
  0 <= Fesl.count st -> Fesl.count st + Z.of_nat (length rows) <= maxInt ->
  Fesl.count (foldl Fesl.iteration st rows) = Fesl.count st + Z.of_nat (length rows) /\
  (forall i row, rows !! i = Some row ->
     Fesl.loginPacket (foldl Fesl.iteration st rows)
       !! ("stats." +:+ Itoa (Fesl.count st + Z.of_nat i) +:+ ".key") =
       Some (Fesl.statsKey row) /\
     Fesl.loginPacket (foldl Fesl.iteration st rows)
       !! ("stats." +:+ Itoa (Fesl.count st + Z.of_nat i) +:+ ".value") =
       Some (Fesl.statsValue row) /\
     Fesl.loginPacket (foldl Fesl.iteration st rows)
       !! ("stats." +:+ Itoa (Fesl.count st + Z.of_nat i) +:+ ".text") =
       Some (Fesl.statsValue row)) /\
  (forall key, (forall n f, key <> "stats." +:+ Itoa n +:+ String "." f) ->
     Fesl.loginPacket (foldl Fesl.iteration st rows) !! key =
     Fesl.loginPacket st !! key).
Proof.
  induction rows as [|row rows IH] using rev_ind; intros st Hpos Hlen.
  - cbn. split; [lia|]. split; [|done]. intros i row Hi. by destruct i.
  - rewrite length_app in Hlen. cbn [length] in Hlen.
    rewrite foldl_app. cbn [foldl].
    destruct (IH st Hpos) as (Hcount & Hrows & Hother); [lia|].
    set (st' := foldl Fesl.iteration st rows) in *.
    unfold Fesl.iteration at 1 2 3 4. cbn [Fesl.count Fesl.loginPacket].
    rewrite Hcount. split; [|split].
    + rewrite wrap64_id by (unfold minInt, maxInt in *; lia).
      rewrite length_app. cbn [length]. lia.
    + intros i r Hi.
      destruct (decide (i = length rows)) as [->|Hne].
      * rewrite list_lookup_middle in Hi by done. injection Hi as <-.
        repeat split.
        -- rewrite lookup_insert_ne, lookup_insert_ne, lookup_insert_eq; [done| |].
           ++ intros Heq. apply stat_name_inj in Heq as [_ [=]];
                unfold minInt, maxInt in *; lia.
           ++ intros Heq. apply stat_name_inj in Heq as [_ [=]];
                unfold minInt, maxInt in *; lia.
        -- rewrite lookup_insert_ne, lookup_insert_eq; [done|].
           intros Heq. apply stat_name_inj in Heq as [_ [=]];
             unfold minInt, maxInt in *; lia.
        -- by rewrite lookup_insert_eq.
      * assert (Hi' : rows !! i = Some r).
        { rewrite lookup_app_l in Hi; [done|].
          apply lookup_lt_Some in Hi. rewrite length_app in Hi. cbn in Hi. lia. }
        assert (Hlt : (i < length rows)%nat) by (by apply lookup_lt_Some in Hi').
        destruct (Hrows i r Hi') as (Hk & Hv & Ht).
        repeat split;
          (rewrite !lookup_insert_ne; [done| | |]);
          intros Heq; apply stat_name_inj in Heq as [Heq _];
          unfold minInt, maxInt in *; lia.
    + intros key Hkey. unfold Fesl.iteration. cbn [Fesl.loginPacket].
      rewrite !lookup_insert_ne; [by apply Hother| | |];
        intros Heq; by apply (Hkey _ _ (eq_sym Heq)).
Qed.

(** X16. When the query returns rows, [GetStats] writes one answer, under the
    query and the payload id of the command: it names the owner, counts the
    rows under [stats.[]], and holds for the row number [i] its key under
    [stats.i.key] and its value under both [stats.i.value] and
    [stats.i.text]. *)
Theorem GetStats_answer event rows w :
  IsActive (clients w (Client event)) = true ->
  Z.of_nat (length rows) <= maxInt ->
  exists answer w',
    Fesl.GetStats event (Fesl.QueryRows rows) w = Returned w' /\
    sent w' =
      (sent w ++ [mkSent (TcpClient (Client event)) (Query (Command event)) answer
                    (PayloadID (Command event))])%list /\
    answer !! "TXN" = Some "GetStats" /\
    answer !! "ownerId" = Some (index (Message (Command event)) "owner") /\
    answer !! "stats.[]" = Some (Itoa (Z.of_nat (length rows))) /\
    (forall i row, rows !! i = Some row ->
       answer !! ("stats." +:+ Itoa (Z.of_nat i) +:+ ".key") = Some (Fesl.statsKey row) /\
       answer !! ("stats." +:+ Itoa (Z.of_nat i) +:+ ".value") = Some (Fesl.statsValue row) /\
       answer !! ("stats." +:+ Itoa (Z.of_nat i) +:+ ".text") = Some (Fesl.statsValue row)).
Proof.
  intros Hon Hlen. unfold Fesl.GetStats. rewrite Hon. cbn [negb].
  set (st0 := Fesl.mkLoop _ _ 0).
  destruct (iteration_rows rows st0) as (Hcount & Hrows & Hother); [done|cbn; lia|].
  destruct (iteration_world rows st0) as (Hsent & _).
  eexists _, _. split; [reflexivity|].
  cbn [sent logAnswer logged WriteFESL]. rewrite Hsent. cbn [Fesl.world st0 sent dbCall Noteln logged].
  split; [done|].
  rewrite Hcount. cbn [Fesl.count st0]. rewrite Z.add_0_l.
  assert (Hfixed : forall key,
    (forall n f, key <> "stats." +:+ Itoa n +:+ String "." f) ->
    key <> "stats.[]" ->
    <["stats.[]" := Itoa (Z.of_nat (length rows))]>
      (Fesl.loginPacket (foldl Fesl.iteration st0 rows)) !! key =
    Fesl.loginPacket st0 !! key).
  { intros key Hkey Hne. rewrite lookup_insert_ne by done. by apply Hother. }
  split; [|split; [|split]].
  - rewrite Hfixed; [| |done].
    + cbn [st0 Fesl.loginPacket]. unfold assign. cbn [foldl fst snd]. by simplify_map_eq.
    + intros n f Heq. cbn in Heq. discriminate.
  - rewrite Hfixed; [| |done].
    + cbn [st0 Fesl.loginPacket]. unfold assign. cbn [foldl fst snd]. by simplify_map_eq.
    + intros n f Heq. cbn in Heq. discriminate.
  - by rewrite lookup_insert_eq.
  - intros i row Hi. destruct (Hrows i row Hi) as (Hk & Hv & Ht).
    cbn [Fesl.count st0] in Hk, Hv, Ht. rewrite Z.add_0_l in Hk, Hv, Ht.
    assert (Hdot : forall f, "stats.[]" <> "stats." +:+ Itoa (Z.of_nat i) +:+ String "." f).
    { intros f Heq. cbn in Heq. injection Heq as Heq.
      pose proof (dotless_Itoa (Z.of_nat i)) as Hd.
      destruct (Itoa (Z.of_nat i)) as [|c s]; cbn in Heq; [discriminate|].
      injection Heq as <- Heq. destruct s as [|c' s]; cbn in Heq; [discriminate|].
      injection Heq as <- Heq. destruct s as [|c'' s]; cbn in Heq; discriminate. }
    rewrite !lookup_insert_ne by apply Hdot. done.
Qed.

Lemma GetStats_answer_witness :
  exists answer w',
    Fesl.GetStats Scenario.stats (Fesl.QueryRows Scenario.statRows)
      Scenario.lobbyOpen = Returned w' /\
    sent w' = (sent Scenario.lobbyOpen ++ [mkSent (TcpClient 3) "rank" answer 5])%list /\
    answer !! "stats.[]" = Some "2" /\
    answer !! "stats.1.key" = Some "xp".
Proof.
  destruct (GetStats_answer Scenario.stats Scenario.statRows Scenario.lobbyOpen eq_refl)
    as (answer & w' & Hout & Hsent & _ & _ & Hcount & Hrows).
  { vm_compute. discriminate. }
  exists answer, w'. split; [exact Hout|]. split; [exact Hsent|].
  split; [exact Hcount|].
  destruct (Hrows 1%nat (Fesl.mkRow "xp" "3400" None) eq_refl) as (Hk & _).
  exact Hk.
Defined.

Lemma append_empty s : s +:+ "" = s.
Proof.
  induction s as [|c s IH]; [done|].
  change (String c (s +:+ "") = String c s). by rewrite IH.
Qed.

Lemma arguments_shape msg owner userId keys :
  length (Fesl.arguments msg owner userId keys) = (2 + Z.to_nat keys)%nat /\
  Fesl.arguments msg owner userId keys !! 0%nat = Some owner /\
  Fesl.arguments msg owner userId keys !! 1%nat = Some userId /\
  (forall i, (i < Z.to_nat keys)%nat ->
     Fesl.arguments msg owner userId keys !! (2 + i)%nat =
     Some (index msg ("keys." +:+ Itoa (Z.of_nat i)))).
Proof.
  unfold Fesl.arguments. split; [|split; [done|split; [done|]]].
  - cbn [app length]. by rewrite length_map, length_seq.
  - intros i Hi. rewrite lookup_app_r by (cbn; lia). cbn [length].
    replace (2 + i - 2)%nat with i by lia.
    change (map ?f ?l) with (f <$> l).
    rewrite list_lookup_fmap, lookup_seq_lt by done. cbn.
    by rewrite append_empty.
Qed.

(** X17. The one query of [GetStats], run whatever comes back: the statement
    for as many keys as [keys.[]] says, with the owner, the user id that the
    store keeps for the client, and then [keys.0], [keys.1], ... in order. A
    command without [keys.[]] asks with the owner and the user id alone. *)
Theorem GetStats_query event db w :
  IsActive (clients w (Client event)) = true ->
  exists args,
    dbCalls (final (Fesl.GetStats event db w)) =
      (dbCalls w ++
       [mkDbCall (GetStatsStatement (Atoi (index (Message (Command event)) "keys.[]")))
          args])%list /\
    length args =
      (2 + Z.to_nat (Atoi (index (Message (Command event)) "keys.[]")))%nat /\
    args !! 0%nat = Some (index (Message (Command event)) "owner") /\
    args !! 1%nat =
      Some (Redis.Get (redis w) (RedisState (clients w (Client event))) "uID") /\
    (forall i,
        (i < Z.to_nat (Atoi (index (Message (Command event)) "keys.[]")))%nat ->
        args !! (2 + i)%nat =
        Some (index (Message (Command event)) ("keys." +:+ Itoa (Z.of_nat i)))) /\
    (Message (Command event) !! "keys.[]" = None -> length args = 2%nat).
Proof.
  intros Hon.
  destruct (arguments_shape (Message (Command event))
              (index (Message (Command event)) "owner")
              (Redis.Get (redis w) (RedisState (clients w (Client event))) "uID")
              (Atoi (index (Message (Command event)) "keys.[]")))
    as (Hlen & H0 & H1 & Hkeys).
  eexists. split; [|split; [exact Hlen|split; [exact H0|split; [exact H1|split; [exact Hkeys|]]]]].
  - unfold Fesl.GetStats. rewrite Hon. cbn [negb].
    destruct db as [err|rows]; cbn [final].
    + done.
    + cbn [dbCalls logAnswer logged WriteFESL].
      set (st0 := Fesl.mkLoop _ _ 0).
      destruct (iteration_world rows st0) as (_ & -> & _). done.
  - intros Hmiss. rewrite Hlen. unfold index at 1. by rewrite Hmiss.
Qed.

Lemma GetStats_query_witness :
  exists args,
    dbCalls (final (Fesl.GetStats Scenario.stats (Fesl.QueryRows Scenario.statRows)
                      Scenario.lobbyOpen)) =
      (dbCalls Scenario.lobbyOpen ++ [mkDbCall (GetStatsStatement 2) args])%list /\
    length args = 4%nat /\
    args !! 3%nat = Some "xp".
Proof.
  destruct (GetStats_query Scenario.stats (Fesl.QueryRows Scenario.statRows)
              Scenario.lobbyOpen eq_refl)
    as (args & Hdb & Hlen & _ & _ & Hkeys & _).
  exists args. split; [exact Hdb|]. split; [exact Hlen|].
  apply (Hkeys 1%nat). vm_compute. lia.
Defined.

End Stats.
